(** * script.js: year stamp, mobile navigation, active link, subscribe form

    A shallow embedding of the page script [src/script.js].  The script is
    one [DOMContentLoaded] callback that stamps the year, registers a click
    listener on [#navToggle], walks the links [.main-nav a] (marking the one
    that points at the current page and registering a click listener on each)
    and registers a submit listener on [#subscribeForm].

    Strings are byte strings (UTF-8); splitting at the ASCII slash is the same
    on bytes as on UTF-16 code units.  The elements the script looks up are
    modelled by role, one optional element per identifier, and are taken to be
    distinct elements of the kinds the markup gives them (a button, a
    container, anchors, a form with its controls, a paragraph). *)

From Stdlib Require Import Ascii.
From stdpp Require Import gmap strings list pretty sorting.

Open Scope string_scope.
Open Scope list_scope.
Open Scope nat_scope.

(** ** JavaScript values *)

Module Js.

(** The values the script handles: [undefined], [null] and strings. *)
Inductive value :=
| Undefined
| Null
| Str (s : string).

#[global] Instance value_eq_dec : EqDecision value.
Proof. solve_decision. Defined.

(** ToBoolean: [undefined], [null] and the empty string are falsy. *)
Definition truthy (v : value) : bool :=
  match v with
  | Undefined | Null => false
  | Str s => negb (bool_decide (s = ""))
  end.

(** [v || d] for a string default [d]: [v] when it is truthy, which makes
    it a string, and [d] otherwise. *)
Definition or_else (v : value) (d : string) : string :=
  match v with
  | Str s => if truthy v then s else d
  | Undefined | Null => d
  end.

(** [v === w]. *)
Definition strict_eq (v w : value) : bool := bool_decide (v = w).

(** [String(b)] for a boolean. *)
Definition String_of_bool (b : bool) : string :=
  if b then "true" else "false".

(** [s.split(sep)] for a one-character separator: the segments between
    the separators, in order; the empty string gives one empty segment. *)
Fixpoint split (sep : ascii) (s : string) : list string :=
  match s with
  | EmptyString => [EmptyString]
  | String c rest =>
      if bool_decide (c = sep) then EmptyString :: split sep rest
      else match split sep rest with
           | [] => [String c EmptyString]
           | seg :: segs => String c seg :: segs
           end
  end.

(** [arr.pop()]: the last element, [undefined] on an empty array. *)
Definition pop (arr : list string) : value :=
  match last arr with
  | Some s => Str s
  | None => Undefined
  end.

(** Uncaught errors. *)
Inductive exn :=
| TypeError (what : string).

End Js.

Import Js.

(** ** DOMTokenList *)

Module ClassList.

Definition contains (tok : string) (cl : list string) : bool :=
  bool_decide (tok ∈ cl).

Definition add (tok : string) (cl : list string) : list string :=
  if contains tok cl then cl else cl ++ [tok].

Definition remove (tok : string) (cl : list string) : list string :=
  filter (λ t, t ≠ tok) cl.

(** [toggle] returns the new list and whether the token is now present. *)
Definition toggle (tok : string) (cl : list string) : list string * bool :=
  if contains tok cl then (remove tok cl, false) else (cl ++ [tok], true).

End ClassList.

(** ** The document *)

(** An anchor of [.main-nav a]: its [href] attribute, if any, and classes. *)
Record Link := mkLink {
  link_href : option string;
  link_classList : list string
}.

(** A listed form control.  [ctl_in_form] tells whether its form owner is
    [#subscribeForm]; [form.reset()] restores [ctl_default]. *)
Record Control := mkControl {
  ctl_id : string;
  ctl_value : string;
  ctl_default : string;
  ctl_in_form : bool
}.

Record Page := mkPage {
  yearEl : option string;                    (* #year: textContent *)
  navToggle : option (gmap string string);   (* #navToggle: attributes *)
  mainNav : option (list string);            (* #mainNav: classList *)
  navLinks : list Link;                      (* .main-nav a, document order *)
  subscribeForm : bool;                      (* is #subscribeForm there *)
  controls : list Control;                   (* form controls, document order *)
  formMsg : option string                    (* #formMsg: textContent *)
}.

(** ** The running page: listeners, timers, clock *)

Inductive Target :=
| OnNavToggle
| OnNavLink (i : nat)
| OnSubscribeForm.

#[global] Instance Target_eq_dec : EqDecision Target.
Proof. solve_decision. Defined.

(** The three closures the script registers. *)
Inductive Listener :=
| NavToggleClick
| NavLinkClick
| SubscribeSubmit.

(** The one callback the script hands to [setTimeout]. *)
Inductive Task :=
| ClearFormMsg.

Record Timer := mkTimer {
  timer_due : nat;
  timer_task : Task
}.

Record Runtime := mkRuntime {
  doc : Page;
  listeners : list (Target * Listener);
  timers : list Timer;
  clock : nat
}.

(** What a listener runs in: the page and the event object it was given. *)
Record Ctx := mkCtx {
  rt : Runtime;
  defaultPrevented : bool
}.

(** ** Setters *)

Definition set_yearEl (v : option string) (p : Page) : Page :=
  mkPage v (navToggle p) (mainNav p) (navLinks p) (subscribeForm p)
         (controls p) (formMsg p).

Definition set_navToggle (v : option (gmap string string)) (p : Page) : Page :=
  mkPage (yearEl p) v (mainNav p) (navLinks p) (subscribeForm p)
         (controls p) (formMsg p).

Definition set_mainNav (v : option (list string)) (p : Page) : Page :=
  mkPage (yearEl p) (navToggle p) v (navLinks p) (subscribeForm p)
         (controls p) (formMsg p).

Definition set_navLinks (v : list Link) (p : Page) : Page :=
  mkPage (yearEl p) (navToggle p) (mainNav p) v (subscribeForm p)
         (controls p) (formMsg p).

Definition set_controls (v : list Control) (p : Page) : Page :=
  mkPage (yearEl p) (navToggle p) (mainNav p) (navLinks p) (subscribeForm p)
         v (formMsg p).

Definition set_formMsg (v : option string) (p : Page) : Page :=
  mkPage (yearEl p) (navToggle p) (mainNav p) (navLinks p) (subscribeForm p)
         (controls p) v.

Definition set_doc (d : Page) (st : Runtime) : Runtime :=
  mkRuntime d (listeners st) (timers st) (clock st).

Definition set_listeners (ls : list (Target * Listener)) (st : Runtime) : Runtime :=
  mkRuntime (doc st) ls (timers st) (clock st).

Definition set_timers (ts : list Timer) (st : Runtime) : Runtime :=
  mkRuntime (doc st) (listeners st) ts (clock st).

Definition set_clock (t : nat) (st : Runtime) : Runtime :=
  mkRuntime (doc st) (listeners st) (timers st) t.

(** ** The listener monad: state and uncaught errors *)

Inductive completion (A : Type) :=
| Normal (a : A)
| Throw (e : exn).
Arguments Normal {A} a.
Arguments Throw {A} e.

Definition js (A : Type) : Type := Ctx → completion A * Ctx.

#[global] Instance js_ret : MRet js := λ A a c, (Normal a, c).

#[global] Instance js_bind : MBind js := λ A B f m c,
  match m c with
  | (Normal a, c') => f a c'
  | (Throw e, c') => (Throw e, c')
  end.

Definition throw {A} (e : exn) : js A := λ c, (Throw e, c).

Definition get_doc : js Page := λ c, (Normal (doc (rt c)), c).

Definition put_doc (d : Page) : js unit :=
  λ c, (Normal (), mkCtx (set_doc d (rt c)) (defaultPrevented c)).

Definition get_rt : js Runtime := λ c, (Normal (rt c), c).

Definition put_rt (st : Runtime) : js unit :=
  λ c, (Normal (), mkCtx st (defaultPrevented c)).

(** ** DOM operations the script calls

    [mainNav], [navToggle], [form] and [msg] are the constants the callback
    binds with [getElementById]; a missing element binds [null], and a
    property read on [null] throws. *)

Definition mainNav_classList : js (list string) :=
  d ← get_doc;
  match mainNav d with
  | Some cl => mret cl
  | None => throw (TypeError "Cannot read properties of null (reading 'classList')")
  end.

Definition mainNav_classList_toggle (tok : string) : js bool :=
  cl ← mainNav_classList;
  d ← get_doc;
  put_doc (set_mainNav (Some (ClassList.toggle tok cl).1) d);;
  mret (ClassList.toggle tok cl).2.

Definition mainNav_classList_contains (tok : string) : js bool :=
  cl ← mainNav_classList;
  mret (ClassList.contains tok cl).

Definition mainNav_classList_remove (tok : string) : js unit :=
  cl ← mainNav_classList;
  d ← get_doc;
  put_doc (set_mainNav (Some (ClassList.remove tok cl)) d).

Definition navToggle_setAttribute (name val : string) : js unit :=
  d ← get_doc;
  match navToggle d with
  | Some attrs => put_doc (set_navToggle (Some (<[name := val]> attrs)) d)
  | None => throw (TypeError "Cannot read properties of null (reading 'setAttribute')")
  end.

(** [e.preventDefault()]. *)
Definition preventDefault : js unit :=
  λ c, (Normal (), mkCtx (rt c) true).

(** [document.getElementById(id)?.value]: the value of the first control
    with that id, [undefined] when there is none. *)
Definition getElementById_value (id : string) : js value :=
  d ← get_doc;
  mret (match list_find (λ c, ctl_id c = id) (controls d) with
        | Some (_, c) => Str (ctl_value c)
        | None => Undefined
        end).

(** [if (msg) { msg.textContent = text; }]. *)
Definition msg_set_textContent (text : string) : js unit :=
  d ← get_doc;
  match formMsg d with
  | Some _ => put_doc (set_formMsg (Some text) d)
  | None => mret ()
  end.

Definition reset_control (c : Control) : Control :=
  if ctl_in_form c
  then mkControl (ctl_id c) (ctl_default c) (ctl_default c) (ctl_in_form c)
  else c.

(** [form.reset()]. *)
Definition form_reset : js unit :=
  d ← get_doc;
  if subscribeForm d
  then put_doc (set_controls (reset_control <$> controls d) d)
  else throw (TypeError "Cannot read properties of null (reading 'reset')").

(** The timer queue is kept in firing order: by due time, and among equal
    due times in the order of the [setTimeout] calls. *)
Fixpoint enqueue (t : Timer) (q : list Timer) : list Timer :=
  match q with
  | [] => [t]
  | u :: q' =>
      if decide (timer_due u ≤ timer_due t) then u :: enqueue t q'
      else t :: u :: q'
  end.

Definition setTimeout (task : Task) (delay : nat) : js unit :=
  st ← get_rt;
  put_rt (set_timers (enqueue (mkTimer (clock st + delay) task) (timers st)) st).

(** ** The three listeners and the timer callback *)

Definition err_text : string := "Please enter a valid email.".
Definition ok_text : string := "Thanks — you are subscribed!".
Definition clear_delay : nat := 3500.

(** navToggle click listener. *)
Definition navToggle_click : js unit :=
  opened ← mainNav_classList_toggle "open";
  navToggle_setAttribute "aria-expanded" (String_of_bool opened).

(** nav link click listener. *)
Definition navLink_click : js unit :=
  isopen ← mainNav_classList_contains "open";
  if (isopen : bool) then mainNav_classList_remove "open" else mret ().

(** subscribeForm submit listener. *)
Definition subscribeForm_submit : js unit :=
  preventDefault;;
  email ← getElementById_value "subEmail";
  if negb (truthy email) then
    msg_set_textContent err_text
  else
    msg_set_textContent ok_text;;
    form_reset;;
    setTimeout ClearFormMsg clear_delay.

Definition listener_body (l : Listener) : js unit :=
  match l with
  | NavToggleClick => navToggle_click
  | NavLinkClick => navLink_click
  | SubscribeSubmit => subscribeForm_submit
  end.

Definition task_body (t : Task) : js unit :=
  match t with
  | ClearFormMsg => msg_set_textContent ""
  end.

(** ** The [DOMContentLoaded] callback *)

Definition addEventListener (tg : Target) (l : Listener) (st : Runtime) : Runtime :=
  set_listeners (listeners st ++ [(tg, l)]) st.

(** [a.getAttribute('href')]. *)
Definition getAttribute_href (a : Link) : value :=
  match link_href a with
  | Some h => Str h
  | None => Null
  end.

(** [location.pathname.split('/').pop() || 'index.html']. *)
Definition current_filename (pathname : string) : string :=
  or_else (pop (split "/"%char pathname)) "index.html".

(** The [filename] constant of the loop body. *)
Definition target_filename (a : Link) : value :=
  let href := or_else (getAttribute_href a) "" in
  let target := if bool_decide (href = "") then "index.html" else href in
  pop (split "/"%char target).

(** The test of the loop body. *)
Definition is_current (current : string) (a : Link) : bool :=
  strict_eq (target_filename a) (Str current)
  || (bool_decide (current = "") && strict_eq (target_filename a) (Str "index.html")).

(** The class change of the loop body. *)
Definition highlight (current : string) (a : Link) : Link :=
  if is_current current a
  then mkLink (link_href a) (ClassList.add "active" (link_classList a))
  else mkLink (link_href a) (ClassList.remove "active" (link_classList a)).

(** [querySelectorAll('.main-nav a').forEach(...)]: the links from index [i]
    on, each highlighted and given its click listener. *)
Fixpoint forEach_navLink (current : string) (i : nat) (links : list Link)
    (ls : list (Target * Listener)) : list Link * list (Target * Listener) :=
  match links with
  | [] => ([], ls)
  | a :: rest =>
      let r := forEach_navLink current (S i) rest (ls ++ [(OnNavLink i, NavLinkClick)]) in
      (highlight current a :: r.1, r.2)
  end.

Definition stamp_year (fullYear : Z) (st : Runtime) : Runtime :=
  match yearEl (doc st) with
  | Some _ => set_doc (set_yearEl (Some (pretty fullYear)) (doc st)) st
  | None => st
  end.

Definition wire_navToggle (st : Runtime) : Runtime :=
  match navToggle (doc st) with
  | Some _ => addEventListener OnNavToggle NavToggleClick st
  | None => st
  end.

Definition wire_navLinks (pathname : string) (st : Runtime) : Runtime :=
  let r := forEach_navLink (current_filename pathname) 0
             (navLinks (doc st)) (listeners st) in
  set_listeners r.2 (set_doc (set_navLinks r.1 (doc st)) st).

Definition wire_subscribeForm (st : Runtime) : Runtime :=
  if subscribeForm (doc st)
  then addEventListener OnSubscribeForm SubscribeSubmit st
  else st.

(** The callback, given the year of the clock and [location.pathname]. *)
Definition DOMContentLoaded (fullYear : Z) (pathname : string) (st : Runtime) : Runtime :=
  wire_subscribeForm (wire_navLinks pathname (wire_navToggle (stamp_year fullYear st))).

(** A parsed page, its one [DOMContentLoaded] delivered. *)
Definition load (fullYear : Z) (pathname : string) (p : Page) : Runtime :=
  DOMContentLoaded fullYear pathname (mkRuntime p [] [] 0).

(** ** Events *)

Inductive Event :=
| ClickNavToggle                    (* a click on #navToggle *)
| ClickNavLink (i : nat)            (* a click on the i-th link *)
| SubmitForm                        (* a submit of #subscribeForm *)
| UserInput (i : nat) (v : string)  (* the user edits the i-th control *)
| Elapse (ms : nat).                (* time passes; due timers fire *)

(** What the browser sees of a dispatch: the errors no listener caught and
    whether the default action was cancelled. *)
Record Report := mkReport {
  uncaught : list exn;
  prevented : bool
}.

(** Callbacks run one after the other; an error ends the callback that
    threw it and is reported, the others still run. *)
Fixpoint invoke (bodies : list (js unit)) (c : Ctx) : list exn * Ctx :=
  match bodies with
  | [] => ([], c)
  | b :: rest =>
      match b c with
      | (Normal _, c') => invoke rest c'
      | (Throw e, c') => let r := invoke rest c' in (e :: r.1, r.2)
      end
  end.

Definition listeners_for (tg : Target) (st : Runtime) : list Listener :=
  (filter (λ e, e.1 = tg) (listeners st)).*2.

Definition dispatch_to (tg : Target) (st : Runtime) : Report * Runtime :=
  let r := invoke (listener_body <$> listeners_for tg st) (mkCtx st false) in
  (mkReport r.1 (defaultPrevented r.2), rt r.2).

Definition set_value (v : string) (c : Control) : Control :=
  mkControl (ctl_id c) v (ctl_default c) (ctl_in_form c).

Definition user_input (i : nat) (v : string) (st : Runtime) : Runtime :=
  set_doc (set_controls (alter (set_value v) i (controls (doc st))) (doc st)) st.

(** [ms] milliseconds pass: the timers due by then are taken off the queue
    and their callbacks run in queue order. *)
Definition advance (ms : nat) (st : Runtime) : Report * Runtime :=
  let now := clock st + ms in
  let due := filter (λ t, timer_due t ≤ now) (timers st) in
  let later := filter (λ t, ¬ timer_due t ≤ now) (timers st) in
  let r := invoke (task_body <$> (timer_task <$> due))
                  (mkCtx (set_clock now (set_timers later st)) false) in
  (mkReport r.1 false, rt r.2).

Definition dispatch (ev : Event) (st : Runtime) : Report * Runtime :=
  match ev with
  | ClickNavToggle => dispatch_to OnNavToggle st
  | ClickNavLink i => dispatch_to (OnNavLink i) st
  | SubmitForm => dispatch_to OnSubscribeForm st
  | UserInput i v => (mkReport [] false, user_input i v st)
  | Elapse ms => advance ms st
  end.

Definition step (ev : Event) (st : Runtime) : Runtime := (dispatch ev st).2.

Definition run (evs : list Event) (st : Runtime) : Runtime :=
  foldl (λ s ev, step ev s) st evs.

(** The states a page goes through. *)
Inductive reachable : Runtime → Prop :=
| reachable_load fullYear pathname p :
    reachable (load fullYear pathname p)
| reachable_step ev st :
    reachable st → reachable (step ev st).

(** ** Observations *)

(** Is the panel open: [mainNav.classList.contains('open')]. *)
Definition panel_open (st : Runtime) : option bool :=
  ClassList.contains "open" <$> mainNav (doc st).

(** [navToggle.getAttribute('aria-expanded')]. *)
Definition aria_expanded (st : Runtime) : option string :=
  attrs ← navToggle (doc st); attrs !! "aria-expanded".

Definition is_active (a : Link) : bool :=
  ClassList.contains "active" (link_classList a).

Definition active_count (st : Runtime) : nat :=
  length (filter (λ a, is_active a = true) (navLinks (doc st))).

(** The time an event takes. *)
Definition ms_of (ev : Event) : nat :=
  match ev with
  | Elapse ms => ms
  | _ => 0
  end.

Definition elapsed (evs : list Event) : nat := sum_list_with ms_of evs.

(** How many links point at the current page. *)
Definition current_count (pathname : string) (p : Page) : nat :=
  length (filter (λ a, target_filename a = Str (current_filename pathname))
                 (navLinks p)).

(** ** The filenames as the specification words them *)

Fixpoint has_slash (s : string) : bool :=
  match s with
  | EmptyString => false
  | String c rest => bool_decide (c = "/"%char) || has_slash rest
  end.

(** The last path segment: what follows the last slash, the whole string
    when it has none. *)
Fixpoint last_segment (s : string) : string :=
  match s with
  | EmptyString => EmptyString
  | String c rest => if has_slash s then last_segment rest else s
  end.

(** The resolved target filename of a link: the last path segment of its
    href, an empty or absent href standing for the home filename. *)
Definition resolved_target (a : Link) : string :=
  match link_href a with
  | None | Some "" => "index.html"
  | Some h => last_segment h
  end.

(** The current filename: the last path segment of the path, the home
    filename when that segment is empty. *)
Definition resolved_current (pathname : string) : string :=
  match last_segment pathname with
  | "" => "index.html"
  | f => f
  end.

(** The value the submit listener reads: [getElementById('subEmail')?.value]. *)
Definition email_value (st : Runtime) : value :=
  match list_find (λ c, ctl_id c = "subEmail") (controls (doc st)) with
  | Some (_, c) => Str (ctl_value c)
  | None => Undefined
  end.

(** The page once [if (msg) { msg.textContent = text; }] has run. *)
Definition with_msg (text : string) (st : Runtime) : Runtime :=
  match formMsg (doc st) with
  | Some _ => set_doc (set_formMsg (Some text) (doc st)) st
  | None => st
  end.

Definition is_submit (ev : Event) : bool :=
  match ev with
  | SubmitForm => true
  | _ => false
  end.

(** What an event leaves alone in a control. *)
Definition ctl_fixed (c : Control) : string * string * bool :=
  (ctl_id c, ctl_default c, ctl_in_form c).

(** What no event changes: the listeners, the links, the year, which of
    the elements exist, and the controls apart from their values. *)
Definition skeleton (st : Runtime) :=
  (listeners st, navLinks (doc st), yearEl (doc st),
   (bool_decide (is_Some (navToggle (doc st))),
    bool_decide (is_Some (mainNav (doc st))),
    subscribeForm (doc st),
    bool_decide (is_Some (formMsg (doc st)))),
   ctl_fixed <$> controls (doc st)).

(** ** A sample page *)

Definition sample_page : Page :=
  mkPage (Some "")
         (Some {["aria-expanded" := "false"]})
         (Some ["main-nav"])
         [mkLink (Some "index.html") ["active"];
          mkLink (Some "about.html") [];
          mkLink (Some "posts/") [];
          mkLink None []]
         true
         [mkControl "subEmail" "" "" true;
          mkControl "subName" "Ann" "" true;
          mkControl "search" "q" "" false]
         (Some "").

(** The same page without the panel element. *)
Definition no_panel_page : Page := set_mainNav None sample_page.

(** A page whose logo and whose first menu entry both lead home. *)
Definition two_home_page : Page :=
  set_navLinks [mkLink (Some "index.html") ["logo"];
                mkLink (Some "index.html") [];
                mkLink (Some "about.html") []]
               sample_page.

(** ** Further observations *)

(** [segs.join(sep)], the inverse of [split]. *)
Fixpoint join (sep : string) (segs : list string) : string :=
  match segs with
  | [] => ""
  | [seg] => seg
  | seg :: rest => seg +:+ sep +:+ join sep rest
  end.

(** Does the string hold the character. *)
Fixpoint has_char (c : ascii) (s : string) : bool :=
  match s with
  | EmptyString => false
  | String c' rest => bool_decide (c' = c) || has_char c rest
  end.

Definition is_click (ev : Event) : bool :=
  match ev with
  | ClickNavToggle | ClickNavLink _ => true
  | _ => false
  end.

(** [aria-expanded] says what the panel is. *)
Definition aria_in_sync (st : Runtime) : Prop :=
  aria_expanded st = String_of_bool <$> panel_open st.

(** The queue is in firing order. *)
Definition in_firing_order (ts : list Timer) : Prop :=
  StronglySorted (λ t u, timer_due t ≤ timer_due u) ts.

(** ** What [DOMContentLoaded] leaves registered *)

(** The listeners the callback registers on a page, in registration order. *)
Definition registered (p : Page) : list (Target * Listener) :=
  match navToggle p with
  | Some _ => [(OnNavToggle, NavToggleClick)]
  | None => []
  end
  ++ imap (λ i _, (OnNavLink i, NavLinkClick)) (navLinks p)
  ++ (if subscribeForm p then [(OnSubscribeForm, SubscribeSubmit)] else []).

Definition wired (st : Runtime) : Prop :=
  listeners st = registered (doc st).

(** No timer on the queue is due yet. *)
Definition timers_ahead (st : Runtime) : Prop :=
  Forall (λ t, clock st < timer_due t) (timers st).

Section Loading.

Lemma forEach_navLink_spec current links : ∀ i ls,
  forEach_navLink current i links ls =
    (highlight current <$> links,
     ls ++ imap (λ j _, (OnNavLink (i + j), NavLinkClick)) links).
Proof.
  induction links as [|a rest IH]; intros i ls; simpl.
  - by rewrite app_nil_r.
  - rewrite IH. simpl. rewrite <- app_assoc. simpl.
    rewrite Nat.add_0_r. do 3 f_equal.
    apply imap_ext. intros j x _. simpl. do 2 f_equal. lia.
Qed.

Lemma load_doc fullYear pathname p :
  doc (load fullYear pathname p) =
    set_navLinks (highlight (current_filename pathname) <$> navLinks p)
      (match yearEl p with
       | Some _ => set_yearEl (Some (pretty fullYear)) p
       | None => p
       end).
Proof.
  unfold load, DOMContentLoaded, wire_subscribeForm, wire_navLinks,
    wire_navToggle, stamp_year.
  rewrite forEach_navLink_spec. simpl.
  destruct p as [y nt mn links sf ctls msg]; simpl.
  destruct y, nt, sf; reflexivity.
Qed.

Lemma load_navLinks fullYear pathname p :
  navLinks (doc (load fullYear pathname p)) =
    highlight (current_filename pathname) <$> navLinks p.
Proof. rewrite load_doc. reflexivity. Qed.

Lemma load_wired fullYear pathname p : wired (load fullYear pathname p).
Proof.
  unfold wired, registered. rewrite load_doc.
  unfold load, DOMContentLoaded, wire_subscribeForm, wire_navLinks,
    wire_navToggle, stamp_year.
  rewrite forEach_navLink_spec.
  destruct p as [y nt mn links sf ctls msg]; simpl.
  rewrite !imap_fmap.
  destruct y, nt, sf; simpl; rewrite ?app_nil_r; reflexivity.
Qed.

Lemma load_timers fullYear pathname p : timers (load fullYear pathname p) = [].
Proof.
  unfold load, DOMContentLoaded, wire_subscribeForm, wire_navLinks,
    wire_navToggle, stamp_year.
  destruct p as [y nt mn links sf ctls msg]; simpl.
  destruct y, nt, sf; reflexivity.
Qed.

End Loading.

(** ** Which listeners an event reaches *)

Section Listeners.

Lemma link_listeners_for (links : list Link) : ∀ k i,
  (filter (λ e, e.1 = OnNavLink i)
     (imap (λ j _, (OnNavLink (k + j), NavLinkClick)) links)).*2 =
    if bool_decide (k ≤ i < k + length links) then [NavLinkClick] else [].
Proof.
  induction links as [|a rest IH]; intros k i; simpl.
  - rewrite bool_decide_eq_false_2; [done | lia].
  - rewrite filter_cons. simpl.
    rewrite (imap_ext _ (λ j _, (OnNavLink (S k + j), NavLinkClick)) rest);
      last by (intros j x _; simpl; do 2 f_equal; lia).
    rewrite Nat.add_0_r. specialize (IH (S k) i).
    destruct (decide (OnNavLink k = OnNavLink i)) as [Heq|Hne].
    + injection Heq as ->. rewrite fmap_cons, IH.
      rewrite (bool_decide_eq_false_2 (S i ≤ i < _)); last lia.
      rewrite bool_decide_eq_true_2; [done | lia].
    + rewrite IH. assert (k ≠ i) by congruence.
      destruct (decide (S k ≤ i < S k + length rest)).
      * rewrite !bool_decide_eq_true_2; [done | lia | done].
      * rewrite !bool_decide_eq_false_2; [done | lia | done].
Qed.

Lemma other_listeners_for (links : list Link) tg : (∀ i, tg ≠ OnNavLink i) →
  filter (λ e, e.1 = tg) (imap (λ i _, (OnNavLink i, NavLinkClick)) links) = [].
Proof.
  intros Htg. apply elem_of_nil_inv. intros [tg' l].
  rewrite list_elem_of_filter, elem_of_lookup_imap. simpl.
  intros [-> (j & a & Heq & _)]. injection Heq as Heq _. by apply (Htg j).
Qed.

Variable st : Runtime.
Hypothesis Hw : wired st.

Lemma listeners_for_navToggle :
  listeners_for OnNavToggle st =
    match navToggle (doc st) with Some _ => [NavToggleClick] | None => [] end.
Proof.
  unfold listeners_for. rewrite Hw. unfold registered.
  rewrite !filter_app, other_listeners_for by done.
  destruct (navToggle (doc st)), (subscribeForm (doc st)); reflexivity.
Qed.

Lemma listeners_for_subscribeForm :
  listeners_for OnSubscribeForm st =
    if subscribeForm (doc st) then [SubscribeSubmit] else [].
Proof.
  unfold listeners_for. rewrite Hw. unfold registered.
  rewrite !filter_app, other_listeners_for by done.
  destruct (navToggle (doc st)), (subscribeForm (doc st)); reflexivity.
Qed.

Lemma listeners_for_navLink i :
  listeners_for (OnNavLink i) st =
    if bool_decide (i < length (navLinks (doc st))) then [NavLinkClick] else [].
Proof.
  unfold listeners_for. rewrite Hw. unfold registered.
  rewrite !filter_app, !fmap_app.
  pose proof (link_listeners_for (navLinks (doc st)) 0 i) as Hl.
  simpl in Hl. rewrite Hl.
  replace (bool_decide (0 ≤ i < length (navLinks (doc st))))
    with (bool_decide (i < length (navLinks (doc st))))
    by (apply bool_decide_ext; lia).
  destruct (navToggle (doc st)), (subscribeForm (doc st)); simpl;
    rewrite ?app_nil_r; reflexivity.
Qed.

End Listeners.

(** ** What each event does on a wired page *)

Ltac js_unfold :=
  unfold navToggle_click, navLink_click, subscribeForm_submit,
    mainNav_classList_toggle, mainNav_classList_contains,
    mainNav_classList_remove, mainNav_classList, navToggle_setAttribute,
    preventDefault, getElementById_value, msg_set_textContent, form_reset,
    setTimeout, throw, get_doc, put_doc, get_rt, put_rt,
    mbind, js_bind, mret, js_ret.

Section Dispatch.

Variable st : Runtime.
Hypothesis Hw : wired st.

Lemma dispatch_toggle_absent :
  navToggle (doc st) = None →
  dispatch ClickNavToggle st = (mkReport [] false, st).
Proof.
  intros Hnt. unfold dispatch, dispatch_to.
  rewrite (listeners_for_navToggle st Hw), Hnt. reflexivity.
Qed.

Lemma dispatch_toggle_no_panel attrs :
  navToggle (doc st) = Some attrs → mainNav (doc st) = None →
  dispatch ClickNavToggle st =
    (mkReport [TypeError "Cannot read properties of null (reading 'classList')"] false,
     st).
Proof.
  intros Hnt Hmn. unfold dispatch, dispatch_to.
  rewrite (listeners_for_navToggle st Hw), Hnt. simpl.
  js_unfold. simpl. rewrite Hmn. reflexivity.
Qed.

Lemma dispatch_toggle attrs cl :
  navToggle (doc st) = Some attrs → mainNav (doc st) = Some cl →
  dispatch ClickNavToggle st =
    (mkReport [] false,
     set_doc (set_navToggle
                (Some (<["aria-expanded" :=
                           String_of_bool (ClassList.toggle "open" cl).2]> attrs))
                (set_mainNav (Some (ClassList.toggle "open" cl).1) (doc st)))
             st).
Proof.
  intros Hnt Hmn. unfold dispatch, dispatch_to.
  rewrite (listeners_for_navToggle st Hw), Hnt. simpl.
  js_unfold. simpl. rewrite Hmn. simpl. rewrite Hnt. reflexivity.
Qed.

Lemma dispatch_link_outside i :
  length (navLinks (doc st)) ≤ i →
  dispatch (ClickNavLink i) st = (mkReport [] false, st).
Proof.
  intros Hi. unfold dispatch, dispatch_to.
  rewrite (listeners_for_navLink st Hw), bool_decide_eq_false_2 by lia.
  reflexivity.
Qed.

Lemma dispatch_link_no_panel i :
  i < length (navLinks (doc st)) → mainNav (doc st) = None →
  dispatch (ClickNavLink i) st =
    (mkReport [TypeError "Cannot read properties of null (reading 'classList')"] false,
     st).
Proof.
  intros Hi Hmn. unfold dispatch, dispatch_to.
  rewrite (listeners_for_navLink st Hw), bool_decide_eq_true_2 by lia. simpl.
  js_unfold. simpl. rewrite Hmn. reflexivity.
Qed.

Lemma dispatch_link i cl :
  i < length (navLinks (doc st)) → mainNav (doc st) = Some cl →
  dispatch (ClickNavLink i) st =
    (mkReport [] false,
     if ClassList.contains "open" cl
     then set_doc (set_mainNav (Some (ClassList.remove "open" cl)) (doc st)) st
     else st).
Proof.
  intros Hi Hmn. unfold dispatch, dispatch_to.
  rewrite (listeners_for_navLink st Hw), bool_decide_eq_true_2 by lia. simpl.
  js_unfold. simpl. rewrite Hmn. simpl.
  destruct (ClassList.contains "open" cl); simpl; [rewrite Hmn|]; reflexivity.
Qed.

End Dispatch.

Section Messages.

Lemma msg_set_textContent_spec text c :
  msg_set_textContent text c =
    (Normal (), mkCtx (with_msg text (rt c)) (defaultPrevented c)).
Proof.
  js_unfold. unfold with_msg. destruct c as [st dp]; simpl.
  destruct (formMsg (doc st)); reflexivity.
Qed.

Lemma with_msg_idem text st : with_msg text (with_msg text st) = with_msg text st.
Proof.
  unfold with_msg. destruct (formMsg (doc st)) eqn:Hm; simpl; by rewrite ?Hm.
Qed.

Lemma formMsg_with_msg text st :
  formMsg (doc (with_msg text st)) = (λ _, text) <$> formMsg (doc st).
Proof. unfold with_msg. destruct (formMsg (doc st)) eqn:Hm; simpl; by rewrite ?Hm. Qed.

Lemma invoke_clears (ts : list Timer) c :
  invoke (task_body <$> (timer_task <$> ts)) c =
    ([], match ts with
         | [] => c
         | _ :: _ => mkCtx (with_msg "" (rt c)) (defaultPrevented c)
         end).
Proof.
  revert c. induction ts as [|[due []] ts IH]; intros c; simpl; [done|].
  rewrite msg_set_textContent_spec, IH. simpl.
  destruct ts; [done|]. simpl. by rewrite with_msg_idem.
Qed.

Lemma dispatch_elapse ms st :
  dispatch (Elapse ms) st =
    (mkReport [] false,
     let st' := set_clock (clock st + ms)
                  (set_timers (filter (λ t, ¬ timer_due t ≤ clock st + ms) (timers st)) st) in
     match filter (λ t, timer_due t ≤ clock st + ms) (timers st) with
     | [] => st'
     | _ :: _ => with_msg "" st'
     end).
Proof.
  unfold dispatch, advance. rewrite invoke_clears. simpl.
  destruct (filter _ (timers st)); reflexivity.
Qed.

End Messages.

Section Submit.

Variable st : Runtime.
Hypothesis Hw : wired st.

Lemma dispatch_submit_absent :
  subscribeForm (doc st) = false →
  dispatch SubmitForm st = (mkReport [] false, st).
Proof.
  intros Hf. unfold dispatch, dispatch_to.
  rewrite (listeners_for_subscribeForm st Hw), Hf. reflexivity.
Qed.

Lemma dispatch_submit_falsy :
  subscribeForm (doc st) = true → truthy (email_value st) = false →
  dispatch SubmitForm st = (mkReport [] true, with_msg err_text st).
Proof.
  intros Hf He. unfold dispatch, dispatch_to.
  rewrite (listeners_for_subscribeForm st Hw), Hf. simpl.
  unfold subscribeForm_submit, preventDefault, getElementById_value, get_doc,
    mbind, js_bind, mret, js_ret. simpl.
  fold (email_value st). rewrite He. simpl.
  rewrite msg_set_textContent_spec. reflexivity.
Qed.

Lemma dispatch_submit_truthy :
  subscribeForm (doc st) = true → truthy (email_value st) = true →
  dispatch SubmitForm st =
    (mkReport [] true,
     let shown := with_msg ok_text st in
     let cleared :=
       set_doc (set_controls (reset_control <$> controls (doc shown)) (doc shown))
               shown in
     set_timers (enqueue (mkTimer (clock st + clear_delay) ClearFormMsg)
                         (timers st)) cleared).
Proof.
  intros Hf He. unfold dispatch, dispatch_to.
  rewrite (listeners_for_subscribeForm st Hw), Hf. simpl.
  unfold subscribeForm_submit, preventDefault, getElementById_value, get_doc,
    mbind, js_bind, mret, js_ret. simpl.
  fold (email_value st). rewrite He. simpl.
  rewrite msg_set_textContent_spec. simpl.
  unfold form_reset, setTimeout, get_doc, put_doc, get_rt, put_rt, throw,
    mbind, js_bind. simpl.
  assert (subscribeForm (doc (with_msg ok_text st)) = true) as ->.
  { unfold with_msg. by destruct (formMsg (doc st)). }
  simpl. do 2 f_equal. unfold with_msg. by destruct (formMsg (doc st)).
Qed.

End Submit.

(** ** Invariants of the running page *)

Section Invariants.

Lemma skeleton_with_msg text st : skeleton (with_msg text st) = skeleton st.
Proof.
  unfold with_msg, skeleton. destruct (formMsg (doc st)) eqn:Hm; simpl; by rewrite ?Hm.
Qed.

Lemma ctl_fixed_reset (cs : list Control) :
  ctl_fixed <$> (reset_control <$> cs) = ctl_fixed <$> cs.
Proof.
  rewrite <- list_fmap_compose. apply list_fmap_ext. intros _ c _.
  unfold reset_control. simpl. by destruct c as [? ? ? []].
Qed.

Lemma ctl_fixed_input i v (cs : list Control) :
  ctl_fixed <$> alter (set_value v) i cs = ctl_fixed <$> cs.
Proof.
  rewrite (list_fmap_alter _ _ id).
  - by apply list_alter_id.
  - by apply Forall_true.
Qed.

Lemma step_skeleton ev st : wired st → skeleton (step ev st) = skeleton st.
Proof.
  intros Hw. unfold step. destruct ev as [|i| |i v|ms].
  - destruct (navToggle (doc st)) as [attrs|] eqn:Hnt;
      [destruct (mainNav (doc st)) as [cl|] eqn:Hmn|].
    + rewrite (dispatch_toggle st Hw attrs cl) by done.
      unfold skeleton. simpl. by rewrite Hnt, Hmn.
    + by rewrite (dispatch_toggle_no_panel st Hw attrs).
    + by rewrite dispatch_toggle_absent.
  - destruct (decide (i < length (navLinks (doc st)))) as [Hi|Hi];
      [destruct (mainNav (doc st)) as [cl|] eqn:Hmn|].
    + rewrite (dispatch_link st Hw i cl) by done. simpl.
      destruct (ClassList.contains "open" cl); [|done].
      unfold skeleton. simpl. by rewrite Hmn.
    + by rewrite dispatch_link_no_panel.
    + rewrite dispatch_link_outside by (done || lia). done.
  - destruct (subscribeForm (doc st)) eqn:Hf;
      [destruct (truthy (email_value st)) eqn:He|].
    + rewrite dispatch_submit_truthy by done. simpl.
      rewrite <- (skeleton_with_msg ok_text st).
      unfold skeleton. simpl. by rewrite ctl_fixed_reset.
    + rewrite dispatch_submit_falsy by done. apply skeleton_with_msg.
    + by rewrite dispatch_submit_absent.
  - simpl. unfold skeleton, user_input. simpl. by rewrite ctl_fixed_input.
  - rewrite dispatch_elapse. simpl.
    destruct (filter _ (timers st)); [done|]. by rewrite skeleton_with_msg.
Qed.

Lemma skeleton_wired st st' : skeleton st' = skeleton st → wired st → wired st'.
Proof.
  unfold skeleton, wired, registered. intros Hs Hw.
  injection Hs as Hl Hn _ Hnt _ Hf _ _. rewrite Hl, Hw, Hn, Hf. f_equal.
  destruct (navToggle (doc st)), (navToggle (doc st')); done.
Qed.

Lemma step_wired ev st : wired st → wired (step ev st).
Proof. intros Hw. apply (skeleton_wired st); [by apply step_skeleton | done]. Qed.

Lemma reachable_wired st : reachable st → wired st.
Proof. induction 1; [apply load_wired | by apply step_wired]. Qed.

Lemma run_reachable evs : ∀ st, reachable st → reachable (run evs st).
Proof.
  induction evs as [|ev evs IH]; intros st Hr; simpl; [done|].
  apply IH. by constructor.
Qed.

Lemma run_skeleton evs : ∀ st, wired st → skeleton (run evs st) = skeleton st.
Proof.
  induction evs as [|ev evs IH]; intros st Hw; simpl; [done|].
  rewrite IH by (by apply step_wired). by apply step_skeleton.
Qed.

Lemma Forall_enqueue (P : Timer → Prop) t q :
  P t → Forall P q → Forall P (enqueue t q).
Proof.
  intros Ht Hq. induction Hq as [|u q Hu Hq IH]; simpl.
  - by constructor.
  - destruct (decide _); repeat constructor; done.
Qed.

Lemma timers_with_msg text st : timers (with_msg text st) = timers st.
Proof. unfold with_msg. by destruct (formMsg (doc st)). Qed.

Lemma clock_with_msg text st : clock (with_msg text st) = clock st.
Proof. unfold with_msg. by destruct (formMsg (doc st)). Qed.

Lemma step_timers_ahead ev st :
  wired st → timers_ahead st → timers_ahead (step ev st).
Proof.
  intros Hw Ht. unfold step. destruct ev as [|i| |i v|ms].
  - destruct (navToggle (doc st)) as [attrs|] eqn:Hnt;
      [destruct (mainNav (doc st)) as [cl|] eqn:Hmn|].
    + by rewrite (dispatch_toggle st Hw attrs cl).
    + by rewrite (dispatch_toggle_no_panel st Hw attrs).
    + by rewrite dispatch_toggle_absent.
  - destruct (decide (i < length (navLinks (doc st)))) as [Hi|Hi];
      [destruct (mainNav (doc st)) as [cl|] eqn:Hmn|].
    + rewrite (dispatch_link st Hw i cl) by done. simpl.
      by destruct (ClassList.contains "open" cl).
    + by rewrite dispatch_link_no_panel.
    + rewrite dispatch_link_outside by (done || lia). done.
  - destruct (subscribeForm (doc st)) eqn:Hf;
      [destruct (truthy (email_value st)) eqn:He|].
    + rewrite dispatch_submit_truthy by done. unfold timers_ahead. simpl.
      rewrite clock_with_msg. apply Forall_enqueue; [|done].
      simpl. unfold clear_delay. lia.
    + rewrite dispatch_submit_falsy by done. unfold timers_ahead. simpl.
      by rewrite clock_with_msg, timers_with_msg.
    + by rewrite dispatch_submit_absent.
  - done.
  - rewrite dispatch_elapse. unfold timers_ahead. simpl.
    assert (Forall (λ t, clock st + ms < timer_due t)
              (filter (λ t, ¬ timer_due t ≤ clock st + ms) (timers st))) as Hlater.
    { apply Forall_forall. intros t [Hd _]%list_elem_of_filter. lia. }
    destruct (filter (λ t, timer_due t ≤ _) (timers st));
      by rewrite ?clock_with_msg, ?timers_with_msg.
Qed.

Lemma reachable_timers_ahead st : reachable st → timers_ahead st.
Proof.
  induction 1 as [y path p|ev st Hr IH].
  - unfold timers_ahead. rewrite load_timers. constructor.
  - apply step_timers_ahead; [by apply reachable_wired | done].
Qed.

End Invariants.

(** ** Strings: [split] and [pop] give the last path segment *)

Section Filenames.

Lemma split_no_slash s : has_slash s = false → split "/" s = [s].
Proof.
  induction s as [|c rest IH]; simpl; [done|].
  intros [Hc Hrest]%orb_false_elim. rewrite Hc, IH; done.
Qed.

Lemma split_slash s :
  has_slash s = true → ∃ seg seg' segs, split "/" s = seg :: seg' :: segs.
Proof.
  induction s as [|c rest IH]; simpl; [done|].
  destruct (bool_decide (c = "/"%char)) eqn:Hc; simpl.
  - intros _. destruct (has_slash rest) eqn:Hrest.
    + destruct (IH eq_refl) as (seg & seg' & segs & ->). eauto.
    + rewrite split_no_slash by done. eauto.
  - intros Hrest. destruct (IH Hrest) as (seg & seg' & segs & ->). eauto.
Qed.

Lemma pop_split s : pop (split "/" s) = Str (last_segment s).
Proof.
  unfold pop. induction s as [|c rest IH]; [done|].
  cbn [split last_segment has_slash].
  destruct (bool_decide (c = "/"%char)) eqn:Hc; cbn [orb].
  - destruct (has_slash rest) eqn:Hrest.
    + destruct (split_slash rest Hrest) as (seg & seg' & segs & Hs).
      rewrite Hs in IH |- *. exact IH.
    + rewrite split_no_slash in IH |- * by done. exact IH.
  - destruct (has_slash rest) eqn:Hrest.
    + destruct (split_slash rest Hrest) as (seg & seg' & segs & Hs).
      rewrite Hs in IH |- *. exact IH.
    + rewrite split_no_slash by done. reflexivity.
Qed.

Lemma last_segment_trailing_slash h : last_segment (h +:+ "/") = "".
Proof.
  induction h as [|c rest IH]; [done|].
  change (String c rest +:+ "/") with (String c (rest +:+ "/")).
  cbn [last_segment]. rewrite IH.
  assert (has_slash (String c (rest +:+ "/")) = true) as ->; [|done].
  clear. cbn [has_slash]. apply orb_true_intro. right.
  induction rest as [|c' rest IH]; [done|].
  change (String c' rest +:+ "/") with (String c' (rest +:+ "/")).
  cbn [has_slash]. rewrite IH. apply orb_true_r.
Qed.

Lemma current_filename_resolved pathname :
  current_filename pathname = resolved_current pathname.
Proof.
  unfold current_filename, resolved_current. rewrite pop_split.
  unfold or_else, truthy. by destruct (last_segment pathname).
Qed.

Lemma current_filename_nonempty pathname : current_filename pathname ≠ "".
Proof.
  rewrite current_filename_resolved. unfold resolved_current.
  by destruct (last_segment pathname).
Qed.

Lemma target_filename_resolved a : target_filename a = Str (resolved_target a).
Proof.
  unfold target_filename, resolved_target, getAttribute_href.
  destruct (link_href a) as [[|c h]|]; [done| |done].
  unfold or_else, truthy. simpl bool_decide. cbn [negb].
  apply pop_split.
Qed.

Lemma is_current_spec pathname a :
  is_current (current_filename pathname) a =
    bool_decide (resolved_target a = resolved_current pathname).
Proof.
  unfold is_current, strict_eq.
  rewrite (bool_decide_eq_false_2 (current_filename pathname = ""))
    by apply current_filename_nonempty.
  rewrite andb_false_l, orb_false_r, target_filename_resolved,
    current_filename_resolved.
  apply bool_decide_ext. split; [by intros [= ->] | by intros ->].
Qed.

End Filenames.

(** ** Class lists *)

Section ClassLists.

Import ClassList.

Lemma contains_add tok cl : contains tok (add tok cl) = true.
Proof.
  unfold add. destruct (contains tok cl) eqn:Hc; [done|].
  unfold contains. apply bool_decide_eq_true_2, elem_of_app. right. by left.
Qed.

Lemma contains_remove tok cl : contains tok (remove tok cl) = false.
Proof.
  unfold contains, remove. apply bool_decide_eq_false_2.
  rewrite list_elem_of_filter. by intros [? _].
Qed.

Lemma add_idem tok cl : add tok (add tok cl) = add tok cl.
Proof. unfold add at 1. by rewrite contains_add. Qed.

Lemma remove_idem tok cl : remove tok (remove tok cl) = remove tok cl.
Proof.
  unfold remove. rewrite list_filter_filter. apply list_filter_iff. tauto.
Qed.

Lemma toggle_returns tok cl : (toggle tok cl).2 = negb (contains tok cl).
Proof. unfold toggle. by destruct (contains tok cl). Qed.

Lemma contains_toggle tok cl :
  contains tok (toggle tok cl).1 = negb (contains tok cl).
Proof.
  unfold toggle. destruct (contains tok cl) eqn:Hc; simpl.
  - apply contains_remove.
  - unfold contains. apply bool_decide_eq_true_2, elem_of_app. right. by left.
Qed.

End ClassLists.

(** ** The active-link highlighter *)

Section Highlighter.

Lemma is_active_highlight current a :
  is_active (highlight current a) = is_current current a.
Proof.
  unfold highlight, is_active. destruct (is_current current a); simpl.
  - apply contains_add.
  - apply contains_remove.
Qed.

Lemma target_filename_highlight current a :
  target_filename (highlight current a) = target_filename a.
Proof. unfold highlight. by destruct (is_current current a). Qed.

Lemma highlight_idem current a :
  highlight current (highlight current a) = highlight current a.
Proof.
  unfold highlight at 1. unfold is_current.
  rewrite target_filename_highlight. fold (is_current current a).
  unfold highlight. destruct (is_current current a); simpl.
  - by rewrite add_idem.
  - by rewrite remove_idem.
Qed.

Lemma run_navLinks evs st :
  wired st → navLinks (doc (run evs st)) = navLinks (doc st).
Proof.
  intros Hw. pose proof (run_skeleton evs st Hw) as Hs.
  unfold skeleton in Hs. by injection Hs.
Qed.

Lemma active_count_load fullYear pathname p :
  active_count (load fullYear pathname p) = current_count pathname p.
Proof.
  unfold active_count, current_count. rewrite load_navLinks.
  induction (navLinks p) as [|a links IH]; [done|].
  rewrite fmap_cons, !filter_cons, is_active_highlight.
  unfold is_current, strict_eq.
  rewrite (bool_decide_eq_false_2 (current_filename pathname = ""))
    by apply current_filename_nonempty.
  rewrite andb_false_l, orb_false_r.
  destruct (decide (target_filename a = Str (current_filename pathname))) as [He|He].
  - rewrite bool_decide_eq_true_2 by done.
    rewrite decide_True by done. simpl. by rewrite IH.
  - rewrite bool_decide_eq_false_2 by done.
    rewrite decide_False by done. exact IH.
Qed.

(** C3, as stated, fails: on a page with two links home, visited at its
    home page, both links carry the active marker. *)
Lemma two_home_links_both_active :
  active_count (load 2026 "/index.html" two_home_page) = 2
  ∧ ¬ active_count (load 2026 "/index.html" two_home_page) ≤ 1.
Proof. split; [vm_compute; reflexivity | vm_compute; lia]. Qed.

(** C3, amended: whenever at most one navigation link has a resolved target
    filename equal to the current filename, then after the page-ready
    evaluation and after every later event handler at most one navigation
    link carries the active marker. *)
Theorem active_count_at_most_one fullYear pathname p evs :
  current_count pathname p ≤ 1 →
  active_count (run evs (load fullYear pathname p)) ≤ 1.
Proof.
  intros Hc. unfold active_count.
  rewrite run_navLinks by apply load_wired.
  fold (active_count (load fullYear pathname p)).
  by rewrite active_count_load.
Qed.

Lemma active_count_at_most_one_witness :
  current_count "/about.html" sample_page ≤ 1
  ∧ active_count (run [ClickNavToggle; ClickNavLink 1; Elapse 10]
                      (load 2026 "/about.html" sample_page)) ≤ 1.
Proof.
  split; [vm_compute; lia|].
  apply (active_count_at_most_one 2026 "/about.html" sample_page).
  vm_compute; lia.
Defined.

(** C4: after the page-ready evaluation the links are the same links in
    the same order with their hrefs, a link carries the active marker
    exactly when its resolved target filename equals the current filename
    (whatever marker it carried before), and evaluating again changes
    nothing. *)
Theorem highlight_marks_exactly_current fullYear pathname p :
  let links' := navLinks (doc (load fullYear pathname p)) in
  link_href <$> links' = link_href <$> navLinks p
  ∧ is_active <$> links' =
      (λ a, bool_decide (resolved_target a = resolved_current pathname))
        <$> navLinks p
  ∧ highlight (current_filename pathname) <$> links' = links'.
Proof.
  simpl. rewrite load_navLinks, <- !list_fmap_compose. split_and!.
  - apply list_fmap_ext. intros _ a _. simpl.
    unfold highlight. by destruct (is_current _ a).
  - apply list_fmap_ext. intros _ a _. simpl.
    by rewrite is_active_highlight, is_current_spec.
  - apply list_fmap_ext. intros _ a _. simpl. apply highlight_idem.
Qed.

(** C9: a link whose href ends in a slash resolves to the empty filename,
    the home default being kept for an empty or absent href; the current
    filename is never empty, so the test of the loop is the plain
    comparison of the two filenames and such a link is never marked
    active, at page-ready or after any later event. *)
Theorem trailing_slash_link_never_active fullYear pathname p i a h evs :
  navLinks p !! i = Some a →
  link_href a = Some (h +:+ "/") →
  target_filename a = Str ""
  ∧ (∀ cl, target_filename (mkLink None cl) = Str "index.html"
          ∧ target_filename (mkLink (Some "") cl) = Str "index.html")
  ∧ current_filename pathname ≠ ""
  ∧ (∀ b, is_current (current_filename pathname) b =
            strict_eq (target_filename b) (Str (current_filename pathname)))
  ∧ is_active <$> navLinks (doc (run evs (load fullYear pathname p))) !! i
      = Some false.
Proof.
  intros Hi Hh.
  assert (target_filename a = Str "") as Ht.
  { rewrite target_filename_resolved. unfold resolved_target. rewrite Hh.
    rewrite last_segment_trailing_slash. by destruct h. }
  assert (∀ b, is_current (current_filename pathname) b =
            strict_eq (target_filename b) (Str (current_filename pathname))) as Hb.
  { intros b. unfold is_current.
    rewrite (bool_decide_eq_false_2 (current_filename pathname = ""))
      by apply current_filename_nonempty.
    by rewrite andb_false_l, orb_false_r. }
  split_and!; [done|done|apply current_filename_nonempty|done|].
  rewrite run_navLinks by apply load_wired.
  rewrite load_navLinks, list_lookup_fmap, Hi. simpl. f_equal.
  rewrite is_active_highlight, Hb, Ht. unfold strict_eq.
  apply bool_decide_eq_false_2. intros [= Hc].
  by apply (current_filename_nonempty pathname).
Qed.

Lemma trailing_slash_link_never_active_witness :
  is_active <$> navLinks (doc (run [ClickNavLink 2]
                                   (load 2026 "/posts/" sample_page))) !! 2
    = Some false.
Proof.
  apply (trailing_slash_link_never_active 2026 "/posts/" sample_page 2
           (mkLink (Some "posts/") []) "posts" [ClickNavLink 2]);
    reflexivity.
Defined.

End Highlighter.

(** ** The navigation toggle *)

Section Navigation.

Lemma toggle_step st attrs cl :
  wired st → navToggle (doc st) = Some attrs → mainNav (doc st) = Some cl →
  panel_open (step ClickNavToggle st) = Some (negb (ClassList.contains "open" cl))
  ∧ aria_expanded (step ClickNavToggle st)
      = Some (String_of_bool (negb (ClassList.contains "open" cl))).
Proof.
  intros Hw Hnt Hmn. unfold step.
  rewrite (dispatch_toggle st Hw attrs cl) by done.
  unfold panel_open, aria_expanded. simpl. split.
  - by rewrite contains_toggle.
  - by rewrite lookup_insert_eq, toggle_returns.
Qed.

Lemma step_keeps_navToggle ev st :
  wired st → is_Some (navToggle (doc st)) →
  is_Some (navToggle (doc (step ev st))).
Proof.
  intros Hw Hnt. pose proof (step_skeleton ev st Hw) as Hs.
  unfold skeleton in Hs. injection Hs as _ _ _ Hb _ _ _ _.
  rewrite (bool_decide_eq_true_2 _ Hnt) in Hb.
  by apply bool_decide_eq_true_1 in Hb.
Qed.

Lemma toggle_run n : ∀ st b,
  reachable st → is_Some (navToggle (doc st)) → panel_open st = Some b →
  panel_open (run (replicate n ClickNavToggle) st) = Some (xorb b (Nat.odd n))
  ∧ (0 < n →
     aria_expanded (run (replicate n ClickNavToggle) st)
       = Some (String_of_bool (xorb b (Nat.odd n)))).
Proof.
  induction n as [|n IH]; intros st b Hr [attrs Hnt] Hp.
  - simpl. split; [by rewrite xorb_false_r | lia].
  - pose proof (reachable_wired st Hr) as Hw.
    unfold panel_open in Hp.
    destruct (mainNav (doc st)) as [cl|] eqn:Hmn; [|done].
    injection Hp as Hp.
    destruct (toggle_step st attrs cl Hw Hnt Hmn) as [Ho Ha].
    rewrite Hp in Ho, Ha.
    destruct (IH (step ClickNavToggle st) (negb b)) as [IHo IHa].
    { by constructor. }
    { apply step_keeps_navToggle; [done | by eexists]. }
    { done. }
    assert (xorb (negb b) (Nat.odd n) = xorb b (Nat.odd (S n))) as Hx.
    { rewrite Nat.odd_succ, <- Nat.negb_odd. by destruct b, (Nat.odd n). }
    simpl. rewrite <- Hx. split; [done|]. intros _.
    destruct n as [|n]; [|apply IHa; lia].
    simpl. by destruct b.
Qed.

(** C1 fails on the code: the link listener closes the panel and leaves
    [aria-expanded] as the toggle listener last wrote it.  On the sample
    page, one click on the toggle and one on a link leave the panel closed
    with [aria-expanded] still "true". *)
Example link_click_leaves_aria_expanded_stale :
  let opened := run [ClickNavToggle] (load 2026 "/index.html" sample_page) in
  let closed := run [ClickNavToggle; ClickNavLink 0]
                    (load 2026 "/index.html" sample_page) in
  (panel_open opened = Some true ∧ aria_expanded opened = Some "true")
  ∧ panel_open closed = Some false
  ∧ aria_expanded closed = Some "true"
  ∧ aria_expanded closed ≠ String_of_bool <$> panel_open closed.
Proof. vm_compute. by split_and!. Qed.

(** C2 fails on the code: only [navToggle] and [form] are guarded.  On the
    sample page without the panel, a click on the toggle and a click on a
    link each end in an uncaught TypeError; the page itself is unchanged. *)
Example clicks_without_panel_throw :
  let st := load 2026 "/index.html" no_panel_page in
  mainNav (doc st) = None
  ∧ dispatch ClickNavToggle st =
      (mkReport [TypeError "Cannot read properties of null (reading 'classList')"]
                false, st)
  ∧ dispatch (ClickNavLink 0) st =
      (mkReport [TypeError "Cannot read properties of null (reading 'classList')"]
                false, st).
Proof. vm_compute. by split_and!. Qed.

(** C5: from a closed panel, after N activations of the toggle the panel is
    open exactly when N is odd, and after each activation [aria-expanded]
    is the string form of that state. *)
Theorem toggle_parity st n :
  reachable st →
  is_Some (navToggle (doc st)) →
  panel_open st = Some false →
  panel_open (run (replicate n ClickNavToggle) st) = Some (Nat.odd n)
  ∧ (0 < n →
     aria_expanded (run (replicate n ClickNavToggle) st)
       = Some (String_of_bool (Nat.odd n))).
Proof.
  intros Hr Hnt Hp. exact (toggle_run n st false Hr Hnt Hp).
Qed.

Lemma toggle_parity_witness :
  panel_open (run (replicate 3 ClickNavToggle)
                  (load 2026 "/index.html" sample_page)) = Some true
  ∧ aria_expanded (run (replicate 3 ClickNavToggle)
                       (load 2026 "/index.html" sample_page)) = Some "true".
Proof.
  destruct (toggle_parity (load 2026 "/index.html" sample_page) 3) as [Ho Ha].
  - apply reachable_load.
  - by eexists.
  - reflexivity.
  - split; [exact Ho | apply Ha; lia].
Defined.

End Navigation.

(** ** Timers between submissions *)

Section Timers.

Lemma elem_of_enqueue t u q : u ∈ enqueue t q ↔ u = t ∨ u ∈ q.
Proof.
  induction q as [|v q IH]; simpl.
  - rewrite list_elem_of_singleton, elem_of_nil. tauto.
  - destruct (decide _); rewrite !elem_of_cons, ?IH; tauto.
Qed.

Lemma filter_ahead now (ts : list Timer) :
  Forall (λ t, now < timer_due t) ts →
  filter (λ t, ¬ timer_due t ≤ now) ts = ts
  ∧ filter (λ t, timer_due t ≤ now) ts = [].
Proof.
  intros Hts. induction Hts as [|t ts Ht Hts [IH1 IH2]]; [done|].
  rewrite !filter_cons, IH1, IH2.
  rewrite decide_True; [|lia]. rewrite decide_False; [done | lia].
Qed.

Lemma fmap_const_twice {A} (x y : string) (o : option A) :
  (λ _, x) <$> ((λ _, y) <$> o) = (λ _, x) <$> o.
Proof. by destruct o. Qed.

(** What an event other than a submission does to the clock, the queue
    and the status message. *)
Lemma step_quiet ev st :
  wired st → timers_ahead st → is_submit ev = false →
  clock (step ev st) = clock st + ms_of ev
  ∧ timers (step ev st)
      = filter (λ t, ¬ timer_due t ≤ clock st + ms_of ev) (timers st)
  ∧ formMsg (doc (step ev st))
      = match filter (λ t, timer_due t ≤ clock st + ms_of ev) (timers st) with
        | [] => formMsg (doc st)
        | _ :: _ => (λ _, "") <$> formMsg (doc st)
        end.
Proof.
  intros Hw Ht Hev.
  assert (Forall (λ t, clock st + 0 < timer_due t) (timers st)) as Ht0.
  { eapply Forall_impl; [exact Ht|]. simpl. intros. lia. }
  destruct (filter_ahead _ _ Ht0) as [Hkeep Hnone].
  unfold step. destruct ev as [|i| |i v|ms]; simpl ms_of; [| |done| |].
  - rewrite Hkeep, Hnone, Nat.add_0_r.
    destruct (navToggle (doc st)) as [attrs|] eqn:Hnt;
      [destruct (mainNav (doc st)) as [cl|] eqn:Hmn|].
    + rewrite (dispatch_toggle st Hw attrs cl) by done. simpl. done.
    + rewrite (dispatch_toggle_no_panel st Hw attrs) by done. simpl. done.
    + rewrite dispatch_toggle_absent by done. simpl. done.
  - rewrite Hkeep, Hnone, Nat.add_0_r.
    destruct (decide (i < length (navLinks (doc st)))) as [Hi|Hi];
      [destruct (mainNav (doc st)) as [cl|] eqn:Hmn|].
    + rewrite (dispatch_link st Hw i cl) by done. simpl.
      destruct (ClassList.contains "open" cl); simpl; done.
    + rewrite dispatch_link_no_panel by done. simpl. done.
    + rewrite dispatch_link_outside by (done || lia). simpl. done.
  - rewrite Hkeep, Hnone, Nat.add_0_r. simpl. done.
  - rewrite dispatch_elapse. simpl.
    destruct (filter (λ t, timer_due t ≤ clock st + ms) (timers st));
      [simpl; done|].
    rewrite clock_with_msg, timers_with_msg, formMsg_with_msg. simpl. done.
Qed.

Lemma elapsed_cons ev evs : elapsed (ev :: evs) = ms_of ev + elapsed evs.
Proof. reflexivity. Qed.


Lemma Forall_earlier (now now' : nat) (ts : list Timer) :
  now' ≤ now →
  Forall (λ t, now < timer_due t) ts → Forall (λ t, now' < timer_due t) ts.
Proof.
  intros Hle Hts. eapply Forall_impl; [exact Hts|].
  intros t Hlt. simpl in Hlt |- *. lia.
Qed.


(** A pending clear is not cancelled: once its time has come, and if
    nothing has been submitted since, the status message is empty. *)
Lemma run_clears evs : ∀ st t0,
  wired st → timers_ahead st →
  Forall (λ ev, is_submit ev = false) evs →
  (formMsg (doc st) = (λ _, "") <$> formMsg (doc st)
   ∨ ∃ t, t ∈ timers st ∧ timer_due t ≤ t0) →
  t0 ≤ clock st + elapsed evs →
  formMsg (doc (run evs st)) = (λ _, "") <$> formMsg (doc st).
Proof.
  induction evs as [|ev evs IH]; intros st t0 Hw Ht Hq Hp Hd.
  - change (elapsed []) with 0 in Hd. change (run [] st) with st.
    destruct Hp as [Hp|(t & Hin & Hdue)]; [done|].
    unfold timers_ahead in Ht. rewrite Forall_forall in Ht.
    specialize (Ht t Hin). lia.
  - apply Forall_cons in Hq as [Hev Hq].
    rewrite elapsed_cons in Hd.
    change (run (ev :: evs) st) with (run evs (step ev st)).
    destruct (step_quiet ev st Hw Ht Hev) as (Hc & Hts & Hm).
    assert ((λ _, "") <$> formMsg (doc (step ev st))
            = (λ _, "") <$> formMsg (doc st)) as Hsame.
    { rewrite Hm.
      destruct (filter (λ t, timer_due t ≤ clock st + ms_of ev) (timers st));
        [done|].
      apply fmap_const_twice. }
    rewrite <- Hsame. apply (IH _ t0).
    + by apply step_wired.
    + by apply step_timers_ahead.
    + done.
    + destruct (filter (λ t, timer_due t ≤ clock st + ms_of ev) (timers st))
        as [|u due] eqn:Hdue.
      * destruct Hp as [Hp|(t & Hin & Ht0)].
        -- left. by rewrite Hsame, Hm.
        -- right. exists t. split; [|done]. rewrite Hts.
           apply list_elem_of_filter. split; [|done].
           intros Hle. by eapply (filter_nil_not_elem_of _ _ t Hdue).
      * left. rewrite Hm. by rewrite fmap_const_twice.
    + rewrite Hc. lia.
Qed.

End Timers.

(** ** The subscription form *)

Section Subscription.

Lemma controls_with_msg text st :
  controls (doc (with_msg text st)) = controls (doc st).
Proof. unfold with_msg. by destruct (formMsg (doc st)). Qed.

(** The branch taken when [!email] holds. *)
Lemma submit_error_path st :
  wired st → subscribeForm (doc st) = true → truthy (email_value st) = false →
  prevented (dispatch SubmitForm st).1 = true
  ∧ uncaught (dispatch SubmitForm st).1 = []
  ∧ formMsg (doc (step SubmitForm st))
      = (λ _, "Please enter a valid email.") <$> formMsg (doc st)
  ∧ controls (doc (step SubmitForm st)) = controls (doc st)
  ∧ timers (step SubmitForm st) = timers st.
Proof.
  intros Hw Hf He. unfold step. rewrite dispatch_submit_falsy by done. simpl.
  by rewrite formMsg_with_msg, controls_with_msg, timers_with_msg.
Qed.

(** The branch taken otherwise. *)
Lemma submit_success_path st :
  wired st → subscribeForm (doc st) = true → truthy (email_value st) = true →
  prevented (dispatch SubmitForm st).1 = true
  ∧ uncaught (dispatch SubmitForm st).1 = []
  ∧ formMsg (doc (step SubmitForm st))
      = (λ _, "Thanks — you are subscribed!") <$> formMsg (doc st)
  ∧ controls (doc (step SubmitForm st)) = reset_control <$> controls (doc st)
  ∧ timers (step SubmitForm st)
      = enqueue (mkTimer (clock st + 3500) ClearFormMsg) (timers st)
  ∧ clock (step SubmitForm st) = clock st.
Proof.
  intros Hw Hf He. unfold step. rewrite dispatch_submit_truthy by done. simpl.
  rewrite controls_with_msg, clock_with_msg.
  split_and!; try done.
  unfold with_msg. destruct (formMsg (doc st)) eqn:Hm; simpl; by rewrite ?Hm.
Qed.

Lemma reset_control_default (cs : list Control) :
  Forall (λ c, ctl_in_form c = true → ctl_value c = ctl_default c)
         (reset_control <$> cs).
Proof.
  apply Forall_fmap, Forall_true. intros [id v d inform]. simpl.
  unfold reset_control. simpl. destruct inform; simpl; [done|discriminate].
Qed.

Lemma no_input_undefined st :
  Forall (λ c, ctl_id c ≠ "subEmail") (controls (doc st)) →
  email_value st = Undefined.
Proof.
  intros Hno. unfold email_value.
  by apply (list_find_None (λ c, ctl_id c = "subEmail")) in Hno as ->.
Qed.

Lemma skeleton_no_input st st' :
  skeleton st' = skeleton st →
  Forall (λ c, ctl_id c ≠ "subEmail") (controls (doc st)) →
  Forall (λ c, ctl_id c ≠ "subEmail") (controls (doc st')).
Proof.
  unfold skeleton. intros Hs Hno. injection Hs as _ _ _ _ _ _ _ Hc.
  apply (Forall_fmap ctl_fixed (λ k, k.1.1 ≠ "subEmail")).
  rewrite Hc. by apply Forall_fmap.
Qed.

Lemma no_input_no_timer evs : ∀ st,
  wired st → timers st = [] →
  Forall (λ c, ctl_id c ≠ "subEmail") (controls (doc st)) →
  timers (run evs st) = [].
Proof.
  induction evs as [|ev evs IH]; intros st Hw Ht Hno; [done|].
  change (run (ev :: evs) st) with (run evs (step ev st)).
  apply IH.
  - by apply step_wired.
  - destruct (is_submit ev) eqn:Hev.
    + destruct ev; try discriminate.
      destruct (subscribeForm (doc st)) eqn:Hf.
      * destruct (submit_error_path st Hw Hf) as (_ & _ & _ & _ & ->); [|done].
        by rewrite no_input_undefined.
      * unfold step. by rewrite dispatch_submit_absent.
    + destruct (step_quiet ev st Hw) as (_ & -> & _); [|done|].
      * unfold timers_ahead. rewrite Ht. constructor.
      * by rewrite Ht.
  - apply (skeleton_no_input st); [by apply step_skeleton | done].
Qed.

(** C6: a submission with the email input empty cancels the default
    action, shows exactly the error text (in the message element, when the
    page has one), leaves every control as it was and schedules nothing. *)
Theorem submit_empty_email st :
  reachable st →
  subscribeForm (doc st) = true →
  email_value st = Str "" →
  prevented (dispatch SubmitForm st).1 = true
  ∧ uncaught (dispatch SubmitForm st).1 = []
  ∧ formMsg (doc (step SubmitForm st))
      = (λ _, "Please enter a valid email.") <$> formMsg (doc st)
  ∧ controls (doc (step SubmitForm st)) = controls (doc st)
  ∧ timers (step SubmitForm st) = timers st.
Proof.
  intros Hr Hf He. apply submit_error_path; [by apply reachable_wired|done|].
  by rewrite He.
Qed.

Lemma submit_empty_email_witness :
  formMsg (doc (step SubmitForm (load 2026 "/about.html" sample_page)))
    = Some "Please enter a valid email."
  ∧ controls (doc (step SubmitForm (load 2026 "/about.html" sample_page)))
    = controls sample_page.
Proof.
  destruct (submit_empty_email (load 2026 "/about.html" sample_page))
    as (_ & _ & Hm & Hc & _).
  - apply reachable_load.
  - reflexivity.
  - reflexivity.
  - split; [exact Hm | exact Hc].
Defined.

(** C7: a submission with a non-empty email shows exactly the success text
    (in the message element, when the page has one), puts every control of
    the form back to its default, and queues one clear 3500 ms ahead; once
    3500 ms have passed with no further submission, whatever else has
    happened, the message is empty. *)
Theorem submit_with_email st e evs :
  reachable st →
  subscribeForm (doc st) = true →
  email_value st = Str e → e ≠ "" →
  Forall (λ ev, is_submit ev = false) evs →
  3500 ≤ elapsed evs →
  prevented (dispatch SubmitForm st).1 = true
  ∧ formMsg (doc (step SubmitForm st))
      = (λ _, "Thanks — you are subscribed!") <$> formMsg (doc st)
  ∧ controls (doc (step SubmitForm st)) = reset_control <$> controls (doc st)
  ∧ Forall (λ c, ctl_in_form c = true → ctl_value c = ctl_default c)
           (controls (doc (step SubmitForm st)))
  ∧ timers (step SubmitForm st)
      = enqueue (mkTimer (clock st + 3500) ClearFormMsg) (timers st)
  ∧ formMsg (doc (run evs (step SubmitForm st)))
      = (λ _, "") <$> formMsg (doc st).
Proof.
  intros Hr Hf He Hne Hq Hd.
  pose proof (reachable_wired st Hr) as Hw.
  assert (truthy (email_value st) = true) as Htr.
  { rewrite He. simpl. by rewrite bool_decide_eq_false_2. }
  destruct (submit_success_path st Hw Hf Htr) as (Hp & _ & Hm & Hc & Ht & Hk).
  split_and!; try done.
  - rewrite Hc. apply reset_control_default.
  - rewrite (run_clears evs _ (clock st + 3500)).
    + rewrite Hm. apply fmap_const_twice.
    + by apply step_wired.
    + apply reachable_timers_ahead. by constructor.
    + done.
    + right. eexists. split; [rewrite Ht; apply elem_of_enqueue; by left|].
      simpl. lia.
    + rewrite Hk. lia.
Qed.

Lemma submit_with_email_witness :
  formMsg (doc (step SubmitForm
                  (run [UserInput 0 "a@b.com"] (load 2026 "/about.html" sample_page))))
    = Some "Thanks — you are subscribed!"
  ∧ formMsg (doc (run [Elapse 1000; ClickNavToggle; Elapse 2500]
                    (step SubmitForm
                       (run [UserInput 0 "a@b.com"]
                            (load 2026 "/about.html" sample_page)))))
    = Some "".
Proof.
  destruct (submit_with_email
              (run [UserInput 0 "a@b.com"] (load 2026 "/about.html" sample_page))
              "a@b.com" [Elapse 1000; ClickNavToggle; Elapse 2500])
    as (_ & Hm & _ & _ & _ & Hlater).
  - apply run_reachable, reachable_load.
  - reflexivity.
  - reflexivity.
  - discriminate.
  - repeat constructor.
  - vm_compute. lia.
  - split; [exact Hm | exact Hlater].
Defined.

(** C10: on a page with the form but no email input, at any point of its
    life no clear is queued, and a submission cancels the default action,
    shows the error text (when the page has a message element), resets no
    control and queues nothing, whatever the controls hold. *)
Theorem submit_without_email_input fullYear pathname p evs :
  subscribeForm p = true →
  Forall (λ c, ctl_id c ≠ "subEmail") (controls p) →
  timers (run evs (load fullYear pathname p)) = []
  ∧ prevented (dispatch SubmitForm (run evs (load fullYear pathname p))).1 = true
  ∧ uncaught (dispatch SubmitForm (run evs (load fullYear pathname p))).1 = []
  ∧ formMsg (doc (step SubmitForm (run evs (load fullYear pathname p))))
      = (λ _, "Please enter a valid email.") <$> formMsg p
  ∧ controls (doc (step SubmitForm (run evs (load fullYear pathname p))))
      = controls (doc (run evs (load fullYear pathname p)))
  ∧ timers (step SubmitForm (run evs (load fullYear pathname p))) = [].
Proof.
  intros Hf Hno.
  pose proof (load_wired fullYear pathname p) as Hw0.
  pose proof (run_skeleton evs _ Hw0) as Hs.
  assert (controls (doc (load fullYear pathname p)) = controls p) as Hc0.
  { rewrite load_doc. by destruct (yearEl p). }
  assert (timers (run evs (load fullYear pathname p)) = []) as Ht.
  { apply no_input_no_timer; [done|apply load_timers|by rewrite Hc0]. }
  assert (wired (run evs (load fullYear pathname p))) as Hw.
  { apply reachable_wired, run_reachable, reachable_load. }
  destruct (submit_error_path (run evs (load fullYear pathname p)))
    as (Hp & Hu & Hm & Hc & Htm).
  - done.
  - unfold skeleton in Hs. injection Hs as _ _ _ _ _ -> _ _.
    rewrite load_doc. by destruct (yearEl p).
  - rewrite no_input_undefined; [done|].
    apply (skeleton_no_input (load fullYear pathname p)); [done|by rewrite Hc0].
  - split_and!; try done; [|by rewrite Htm].
    rewrite Hm. unfold skeleton in Hs. injection Hs as _ _ _ _ _ _ Hmsg _.
    assert (bool_decide (is_Some (formMsg (doc (load fullYear pathname p))))
            = bool_decide (is_Some (formMsg p))) as Hmsg0.
    { rewrite load_doc. by destruct (yearEl p). }
    rewrite Hmsg0 in Hmsg.
    destruct (formMsg (doc (run evs _))), (formMsg p); simpl in *;
      done || (exfalso; revert Hmsg; clear; intros Hmsg;
               rewrite ?(bool_decide_eq_true_2 (is_Some (Some _))) in Hmsg by eauto;
               rewrite ?(bool_decide_eq_false_2 (is_Some None)) in Hmsg
                 by (by intros [??]);
               discriminate).
Qed.

Lemma submit_without_email_input_witness :
  formMsg (doc (step SubmitForm
                  (run [UserInput 0 "Ann"; SubmitForm; Elapse 4000]
                       (load 2026 "/index.html"
                             (set_controls [mkControl "subName" "" "" true]
                                           sample_page)))))
    = Some "Please enter a valid email.".
Proof.
  destruct (submit_without_email_input 2026 "/index.html"
              (set_controls [mkControl "subName" "" "" true] sample_page)
              [UserInput 0 "Ann"; SubmitForm; Elapse 4000])
    as (_ & _ & _ & Hm & _).
  - reflexivity.
  - repeat constructor; discriminate.
  - exact Hm.
Defined.




End Subscription.

(** * Further properties of the script *)

(** ** What an event leaves of the page *)

Section Frames.

Lemma doc_with_msg text st :
  doc (with_msg text st) =
    match formMsg (doc st) with
    | Some _ => set_formMsg (Some text) (doc st)
    | None => doc st
    end.
Proof. unfold with_msg. by destruct (formMsg (doc st)). Qed.

(** Events other than clicks leave the toggle and the panel alone and
    raise nothing. *)
Lemma step_nav_frame ev st :
  wired st → is_click ev = false →
  navToggle (doc (step ev st)) = navToggle (doc st)
  ∧ mainNav (doc (step ev st)) = mainNav (doc st)
  ∧ uncaught (dispatch ev st).1 = [].
Proof.
  intros Hw Hev. unfold step. destruct ev as [|i| |i v|ms]; try discriminate.
  - destruct (subscribeForm (doc st)) eqn:Hf;
      [destruct (truthy (email_value st)) eqn:He|].
    + rewrite dispatch_submit_truthy by done. simpl.
      rewrite doc_with_msg. by destruct (formMsg (doc st)).
    + rewrite dispatch_submit_falsy by done. simpl.
      rewrite doc_with_msg. by destruct (formMsg (doc st)).
    + by rewrite dispatch_submit_absent.
  - done.
  - rewrite dispatch_elapse. simpl.
    destruct (filter (λ t, timer_due t ≤ clock st + ms) (timers st)); [done|].
    rewrite doc_with_msg. simpl. by destruct (formMsg (doc st)).
Qed.

(** Clicks leave the form, its controls, the message and the timers alone. *)
Lemma step_form_frame ev st :
  wired st → is_click ev = true →
  controls (doc (step ev st)) = controls (doc st)
  ∧ formMsg (doc (step ev st)) = formMsg (doc st)
  ∧ timers (step ev st) = timers st
  ∧ clock (step ev st) = clock st
  ∧ prevented (dispatch ev st).1 = false.
Proof.
  intros Hw Hev. unfold step. destruct ev as [|i| |i v|ms]; try discriminate.
  - destruct (navToggle (doc st)) as [attrs|] eqn:Hnt;
      [destruct (mainNav (doc st)) as [cl|] eqn:Hmn|].
    + by rewrite (dispatch_toggle st Hw attrs cl).
    + by rewrite (dispatch_toggle_no_panel st Hw attrs).
    + by rewrite dispatch_toggle_absent.
  - destruct (decide (i < length (navLinks (doc st)))) as [Hi|Hi];
      [destruct (mainNav (doc st)) as [cl|] eqn:Hmn|].
    + rewrite (dispatch_link st Hw i cl) by done. simpl.
      by destruct (ClassList.contains "open" cl).
    + by rewrite dispatch_link_no_panel.
    + rewrite dispatch_link_outside by (done || lia). done.
Qed.

End Frames.

(** ** Page-ready *)

Section PageReady.

(** X1: the year element, when the page has one, shows the decimal year
    of the clock from page-ready on, and no event changes it; a page
    without the element stays without it. *)
Theorem year_stamped_and_kept fullYear pathname p evs :
  yearEl (doc (run evs (load fullYear pathname p)))
    = (λ _, pretty fullYear) <$> yearEl p.
Proof.
  pose proof (run_skeleton evs _ (load_wired fullYear pathname p)) as Hs.
  unfold skeleton in Hs. injection Hs as _ _ -> _ _ _ _ _.
  rewrite load_doc. destruct (yearEl p) eqn:Hy; simpl; by rewrite ?Hy.
Qed.

(** X2: at any point of the page's life a click on the toggle reaches one
    listener when the toggle exists, a click on the i-th link reaches one
    listener when there is an i-th link, a submit reaches one listener
    when the form exists, and otherwise none: each listener is registered
    once, on existing elements only, and no event adds or removes one. *)
Theorem one_listener_per_element fullYear pathname p evs :
  let st := run evs (load fullYear pathname p) in
  listeners_for OnNavToggle st
    = match navToggle p with Some _ => [NavToggleClick] | None => [] end
  ∧ (∀ i, listeners_for (OnNavLink i) st
          = if bool_decide (i < length (navLinks p)) then [NavLinkClick] else [])
  ∧ listeners_for OnSubscribeForm st
    = if subscribeForm p then [SubscribeSubmit] else [].
Proof.
  simpl.
  pose proof (load_wired fullYear pathname p) as Hw0.
  pose proof (run_skeleton evs _ Hw0) as Hs.
  assert (wired (run evs (load fullYear pathname p))) as Hw.
  { apply (skeleton_wired (load fullYear pathname p)); done. }
  unfold skeleton in Hs. injection Hs as _ Hl _ Hnt _ Hf _ _.
  rewrite load_doc in Hl, Hnt, Hf.
  assert (navLinks (set_navLinks (highlight (current_filename pathname) <$> navLinks p)
            match yearEl p with
            | Some _ => set_yearEl (Some (pretty fullYear)) p
            | None => p
            end) = highlight (current_filename pathname) <$> navLinks p) as Hl0
    by done.
  rewrite Hl0 in Hl.
  assert (∀ q : Page, navToggle (set_navLinks (highlight (current_filename pathname) <$> navLinks p) q) = navToggle q) as Hq by done.
  rewrite Hq in Hnt. clear Hq Hl0.
  split_and!.
  - rewrite (listeners_for_navToggle _ Hw).
    destruct (navToggle (doc (run evs _))) eqn:H1, (yearEl p), (navToggle p) eqn:H2;
      simpl in Hnt; rewrite ?H2 in Hnt; try done;
      exfalso; revert Hnt;
      rewrite ?(bool_decide_eq_true_2 (is_Some (Some _))) by eauto;
      rewrite ?(bool_decide_eq_false_2 (is_Some None)) by (by intros [??]);
      discriminate.
  - intros i. rewrite (listeners_for_navLink _ Hw), Hl. by rewrite length_fmap.
  - rewrite (listeners_for_subscribeForm _ Hw), Hf. by destruct (yearEl p).
Qed.

End PageReady.

(** ** The navigation listeners, once more *)

Section NavigationMore.

Import ClassList.

Lemma remove_absent tok cl : contains tok cl = false → remove tok cl = cl.
Proof.
  unfold contains, remove. intros Hc%bool_decide_eq_false_1.
  induction cl as [|t cl IH]; [done|].
  rewrite filter_cons. apply not_elem_of_cons in Hc as [Hne Hc].
  rewrite decide_True by done. by rewrite IH.
Qed.

Lemma contains_remove_ne tok t cl :
  tok ≠ t → contains tok (remove t cl) = contains tok cl.
Proof.
  intros Hne. unfold contains, remove. apply bool_decide_ext.
  rewrite list_elem_of_filter. tauto.
Qed.

Lemma contains_toggle_ne tok t cl :
  tok ≠ t → contains tok (toggle t cl).1 = contains tok cl.
Proof.
  intros Hne. unfold toggle. destruct (contains t cl); simpl.
  - by apply contains_remove_ne.
  - unfold contains. apply bool_decide_ext.
    rewrite elem_of_app, list_elem_of_singleton. tauto.
Qed.

(** X3: a click on a navigation link, the panel being there, leaves the
    panel closed: the class 'open' is removed and every other class of the
    panel is kept, a panel that was closed already is left exactly as it
    was, nothing is raised, the default action (the navigation) is not
    cancelled, and [aria-expanded] is not written. *)
Theorem link_click_closes_panel st i cl :
  reachable st →
  i < length (navLinks (doc st)) →
  mainNav (doc st) = Some cl →
  panel_open (step (ClickNavLink i) st) = Some false
  ∧ mainNav (doc (step (ClickNavLink i) st)) = Some (remove "open" cl)
  ∧ (∀ tok, tok ≠ "open" → contains tok (remove "open" cl) = contains tok cl)
  ∧ (contains "open" cl = false → step (ClickNavLink i) st = st)
  ∧ navToggle (doc (step (ClickNavLink i) st)) = navToggle (doc st)
  ∧ dispatch (ClickNavLink i) st
    = (mkReport [] false, step (ClickNavLink i) st).
Proof.
  intros Hr Hi Hmn. pose proof (reachable_wired st Hr) as Hw.
  unfold step, panel_open. rewrite (dispatch_link st Hw i cl) by done. simpl.
  destruct (contains "open" cl) eqn:Hc; simpl.
  - rewrite contains_remove.
    split_and!; try done. intros tok Hne. by apply contains_remove_ne.
  - rewrite Hmn. simpl. rewrite Hc, remove_absent by done.
    split_and!; try done.
Qed.

Lemma link_click_closes_panel_witness :
  panel_open (step (ClickNavLink 1)
                (run [ClickNavToggle] (load 2026 "/index.html" sample_page)))
    = Some false
  ∧ mainNav (doc (step (ClickNavLink 1)
                    (run [ClickNavToggle] (load 2026 "/index.html" sample_page))))
    = Some ["main-nav"].
Proof.
  destruct (link_click_closes_panel
              (run [ClickNavToggle] (load 2026 "/index.html" sample_page))
              1 ["main-nav"; "open"])
    as (Hp & Hm & _).
  - apply run_reachable, reachable_load.
  - vm_compute. lia.
  - reflexivity.
  - split; [exact Hp | exact Hm].
Defined.

(** X4: a click on the toggle, toggle and panel being there, flips the
    panel whatever its state was, writes the string form of the new state
    to [aria-expanded], keeps every other attribute of the toggle and
    every other class of the panel, and raises nothing. *)
Theorem toggle_click_syncs_aria st attrs cl :
  reachable st →
  navToggle (doc st) = Some attrs →
  mainNav (doc st) = Some cl →
  panel_open (step ClickNavToggle st) = Some (negb (contains "open" cl))
  ∧ aria_in_sync (step ClickNavToggle st)
  ∧ navToggle (doc (step ClickNavToggle st))
    = Some (<["aria-expanded" := String_of_bool (negb (contains "open" cl))]> attrs)
  ∧ (∀ name, name ≠ "aria-expanded" →
       (<["aria-expanded" := String_of_bool (negb (contains "open" cl))]> attrs)
         !! name = attrs !! name)
  ∧ mainNav (doc (step ClickNavToggle st)) = Some (toggle "open" cl).1
  ∧ (∀ tok, tok ≠ "open" → contains tok (toggle "open" cl).1 = contains tok cl)
  ∧ uncaught (dispatch ClickNavToggle st).1 = [].
Proof.
  intros Hr Hnt Hmn. pose proof (reachable_wired st Hr) as Hw.
  destruct (toggle_step st attrs cl Hw Hnt Hmn) as [Ho Ha].
  split_and!.
  - done.
  - unfold aria_in_sync. by rewrite Ha, Ho.
  - unfold step. rewrite (dispatch_toggle st Hw attrs cl) by done. simpl.
    by rewrite toggle_returns.
  - intros name Hne. by apply lookup_insert_ne.
  - unfold step. by rewrite (dispatch_toggle st Hw attrs cl).
  - intros tok Hne. by apply contains_toggle_ne.
  - by rewrite (dispatch_toggle st Hw attrs cl).
Qed.

Lemma toggle_click_syncs_aria_witness :
  aria_in_sync (step ClickNavToggle
                  (run [ClickNavToggle; ClickNavLink 0]
                       (load 2026 "/index.html" sample_page))).
Proof.
  destruct (toggle_click_syncs_aria
              (run [ClickNavToggle; ClickNavLink 0]
                   (load 2026 "/index.html" sample_page))
              (<["aria-expanded" := "true"]> {["aria-expanded" := "false"]})
              ["main-nav"])
    as (_ & Hs & _).
  - apply run_reachable, reachable_load.
  - vm_compute. reflexivity.
  - reflexivity.
  - exact Hs.
Defined.

(** X5: once [aria-expanded] says what the panel is, it keeps doing so
    through every event other than a link click on an open panel: toggle
    clicks, link clicks on a closed panel, submissions, user input and
    firing timers keep the two in step. *)
Theorem aria_sync_kept st ev :
  reachable st →
  aria_in_sync st →
  (∀ i, ev = ClickNavLink i → panel_open st ≠ Some true) →
  aria_in_sync (step ev st).
Proof.
  intros Hr Hs Hev. pose proof (reachable_wired st Hr) as Hw.
  destruct (is_click ev) eqn:Hc.
  - destruct ev as [|i| |i v|ms]; try discriminate.
    + destruct (navToggle (doc st)) as [attrs|] eqn:Hnt;
        [destruct (mainNav (doc st)) as [cl|] eqn:Hmn|].
      * destruct (toggle_step st attrs cl Hw Hnt Hmn) as [Ho Ha].
        unfold aria_in_sync. by rewrite Ha, Ho.
      * unfold step. by rewrite (dispatch_toggle_no_panel st Hw attrs).
      * unfold step. by rewrite dispatch_toggle_absent.
    + destruct (decide (i < length (navLinks (doc st)))) as [Hi|Hi];
        [destruct (mainNav (doc st)) as [cl|] eqn:Hmn|].
      * unfold step. rewrite (dispatch_link st Hw i cl) by done. simpl.
        destruct (contains "open" cl) eqn:Hopen; [|done].
        exfalso. apply (Hev i eq_refl). unfold panel_open.
        rewrite Hmn. simpl. by rewrite Hopen.
      * unfold step. by rewrite dispatch_link_no_panel.
      * unfold step. rewrite dispatch_link_outside by (done || lia). done.
  - destruct (step_nav_frame ev st Hw Hc) as (Hnt & Hmn & _).
    unfold aria_in_sync, aria_expanded, panel_open in *. by rewrite Hnt, Hmn.
Qed.

Lemma aria_sync_kept_witness :
  aria_in_sync (step SubmitForm
                  (run [ClickNavToggle] (load 2026 "/index.html" sample_page))).
Proof.
  apply aria_sync_kept.
  - apply run_reachable, reachable_load.
  - vm_compute. reflexivity.
  - discriminate.
Defined.

(** X6: a link click on an open panel whose [aria-expanded] is in step
    always leaves the two out of step: the panel is closed and the
    attribute still reads "true". *)
Theorem link_click_on_open_panel_breaks_sync st i :
  reachable st →
  i < length (navLinks (doc st)) →
  panel_open st = Some true →
  aria_in_sync st →
  panel_open (step (ClickNavLink i) st) = Some false
  ∧ aria_expanded (step (ClickNavLink i) st) = Some "true"
  ∧ ¬ aria_in_sync (step (ClickNavLink i) st).
Proof.
  intros Hr Hi Ho Hs. pose proof (reachable_wired st Hr) as Hw.
  unfold panel_open in Ho.
  destruct (mainNav (doc st)) as [cl|] eqn:Hmn; [|done].
  injection Ho as Ho.
  assert (aria_expanded st = Some "true") as Ha.
  { rewrite Hs. unfold panel_open. rewrite Hmn. simpl. by rewrite Ho. }
  assert (panel_open (step (ClickNavLink i) st) = Some false
          ∧ aria_expanded (step (ClickNavLink i) st) = Some "true") as [Hp' Ha'].
  { unfold step, panel_open, aria_expanded in *.
    rewrite (dispatch_link st Hw i cl) by done. simpl. rewrite Ho. simpl.
    by rewrite contains_remove. }
  split_and!; [done|done|].
  unfold aria_in_sync. rewrite Ha', Hp'. discriminate.
Qed.

Lemma link_click_on_open_panel_breaks_sync_witness :
  ¬ aria_in_sync (step (ClickNavLink 2)
                    (run [ClickNavToggle] (load 2026 "/about.html" sample_page))).
Proof.
  apply link_click_on_open_panel_breaks_sync.
  - apply run_reachable, reachable_load.
  - vm_compute. lia.
  - vm_compute. reflexivity.
  - vm_compute. reflexivity.
Defined.

End NavigationMore.

(** ** Errors and default actions *)

Section Reports.

(** X7: the one thing a listener dereferences unguarded is the panel: with
    the panel there, or for an event that is not a click, no event ever
    ends in an uncaught error. *)
Theorem no_uncaught_error_with_panel st ev :
  reachable st →
  (is_click ev = true → is_Some (mainNav (doc st))) →
  uncaught (dispatch ev st).1 = [].
Proof.
  intros Hr Hp. pose proof (reachable_wired st Hr) as Hw.
  destruct (is_click ev) eqn:Hc.
  - destruct (Hp eq_refl) as [cl Hmn].
    destruct ev as [|i| |i v|ms]; try discriminate.
    + destruct (navToggle (doc st)) as [attrs|] eqn:Hnt.
      * by rewrite (dispatch_toggle st Hw attrs cl).
      * by rewrite dispatch_toggle_absent.
    + destruct (decide (i < length (navLinks (doc st)))) as [Hi|Hi].
      * by rewrite (dispatch_link st Hw i cl).
      * rewrite dispatch_link_outside by (done || lia). done.
  - by destruct (step_nav_frame ev st Hw Hc) as (_ & _ & ?).
Qed.

Lemma no_uncaught_error_with_panel_witness :
  uncaught (dispatch (ClickNavLink 3) (load 2026 "/index.html" sample_page)).1 = []
  ∧ uncaught (dispatch SubmitForm (load 2026 "/index.html" no_panel_page)).1 = [].
Proof.
  split.
  - apply no_uncaught_error_with_panel; [apply reachable_load|].
    intros _. by eexists.
  - apply no_uncaught_error_with_panel; [apply reachable_load|].
    discriminate.
Defined.

(** X8: the default action of an event is cancelled exactly when the event
    is a submit and the form is there: link clicks are never cancelled, so
    the browser still follows the link. *)
Theorem default_cancelled_only_on_submit st ev :
  reachable st →
  prevented (dispatch ev st).1 = is_submit ev && subscribeForm (doc st).
Proof.
  intros Hr. pose proof (reachable_wired st Hr) as Hw.
  destruct (is_click ev) eqn:Hc.
  - destruct (step_form_frame ev st Hw Hc) as (_ & _ & _ & _ & ->).
    by destruct ev.
  - destruct ev as [|i| |i v|ms]; try discriminate.
    + simpl is_submit. cbn [andb].
      destruct (subscribeForm (doc st)) eqn:Hf;
        [destruct (truthy (email_value st)) eqn:He|].
      * by rewrite dispatch_submit_truthy.
      * by rewrite dispatch_submit_falsy.
      * by rewrite dispatch_submit_absent.
    + done.
    + by rewrite dispatch_elapse.
Qed.

Lemma default_cancelled_only_on_submit_witness :
  prevented (dispatch (ClickNavLink 0) (load 2026 "/index.html" sample_page)).1
    = false
  ∧ prevented (dispatch SubmitForm (load 2026 "/index.html" sample_page)).1
    = true.
Proof.
  split.
  - apply (default_cancelled_only_on_submit _ (ClickNavLink 0)), reachable_load.
  - rewrite (default_cancelled_only_on_submit _ SubmitForm)
      by apply reachable_load.
    reflexivity.
Defined.

End Reports.

(** ** Filenames, once more *)

Section FilenamesMore.

Lemma split_nonempty sep s : split sep s ≠ [].
Proof.
  destruct s as [|c rest]; simpl; [done|].
  destruct (bool_decide (c = sep)); [done|]. by destruct (split sep rest).
Qed.

Lemma join_cons sep seg segs :
  segs ≠ [] → join sep (seg :: segs) = seg +:+ sep +:+ join sep segs.
Proof. by destruct segs. Qed.

(** X9: [split] loses nothing: joining the segments with the separator
    gives the string back, and no segment holds the separator. *)
Theorem split_join sep s :
  join (String sep "") (split sep s) = s
  ∧ Forall (λ seg, has_char sep seg = false) (split sep s).
Proof.
  induction s as [|c rest [IHj IHf]]; [by repeat constructor|].
  pose proof (split_nonempty sep rest) as Hne.
  cbn [split]. destruct (bool_decide (c = sep)) eqn:Hc.
  - apply bool_decide_eq_true_1 in Hc as ->. split.
    + rewrite join_cons by done. by rewrite IHj.
    + by constructor.
  - destruct (split sep rest) as [|seg segs]; [done|]. split.
    + destruct segs as [|seg' segs].
      * simpl in IHj |- *. by rewrite IHj.
      * rewrite join_cons in IHj |- * by done.
        change (String c seg +:+ String sep "" +:+ join (String sep "") (seg' :: segs))
          with (String c (seg +:+ String sep "" +:+ join (String sep "") (seg' :: segs))).
        by rewrite IHj.
    + apply Forall_cons in IHf as [Hseg Hsegs]. constructor; [|done].
      cbn [has_char]. by rewrite Hc, Hseg.
Qed.

Lemma last_segment_no_slash f : has_slash f = false → last_segment f = f.
Proof. destruct f as [|c rest]; [done|]. cbn [last_segment]. by intros ->. Qed.

Lemma last_segment_in_directory d f :
  has_slash f = false → last_segment (d +:+ "/" +:+ f) = f.
Proof.
  intros Hf. induction d as [|c rest IH].
  - change ("" +:+ "/" +:+ f) with (String "/" f).
    cbn [last_segment has_slash]. simpl bool_decide. cbn [orb].
    by apply last_segment_no_slash.
  - change (String c rest +:+ "/" +:+ f) with (String c (rest +:+ "/" +:+ f)).
    cbn [last_segment]. rewrite IH.
    assert (has_slash (String c (rest +:+ "/" +:+ f)) = true) as ->; [|done].
    cbn [has_slash]. apply orb_true_intro. right. clear.
    induction rest as [|c' rest IH]; [done|].
    change (String c' rest +:+ "/" +:+ f) with (String c' (rest +:+ "/" +:+ f)).
    cbn [has_slash]. rewrite IH. apply orb_true_r.
Qed.

(** X10: only the last path segment counts: a link to a file in any
    directory is marked active on a page of that file name in any
    directory. *)
Theorem same_file_other_directory_is_active d d' f cl :
  has_slash f = false →
  f ≠ "" →
  target_filename (mkLink (Some (d +:+ "/" +:+ f)) cl) = Str f
  ∧ current_filename (d' +:+ "/" +:+ f) = f
  ∧ is_active (highlight (current_filename (d' +:+ "/" +:+ f))
                         (mkLink (Some (d +:+ "/" +:+ f)) cl)) = true.
Proof.
  intros Hf Hne.
  assert (resolved_target (mkLink (Some (d +:+ "/" +:+ f)) cl) = f) as Ht.
  { unfold resolved_target. simpl.
    rewrite last_segment_in_directory by done.
    destruct d; [done|]. by simpl. }
  assert (resolved_current (d' +:+ "/" +:+ f) = f) as Hc.
  { unfold resolved_current. rewrite last_segment_in_directory by done.
    by destruct f. }
  split_and!.
  - by rewrite target_filename_resolved, Ht.
  - by rewrite current_filename_resolved.
  - rewrite is_active_highlight, is_current_spec, Ht, Hc.
    by apply bool_decide_eq_true_2.
Qed.

Lemma same_file_other_directory_is_active_witness :
  is_active (highlight (current_filename ("/site" +:+ "/" +:+ "index.html"))
                       (mkLink (Some ("blog" +:+ "/" +:+ "index.html")) []))
    = true.
Proof.
  apply (same_file_other_directory_is_active "blog" "/site" "index.html" []);
    [reflexivity | discriminate].
Defined.

Lemma has_char_append c s t :
  has_char c (s +:+ t) = has_char c s || has_char c t.
Proof.
  induction s as [|a s IH]; [done|].
  change (String a s +:+ t) with (String a (s +:+ t)).
  cbn [has_char]. by rewrite IH, orb_assoc.
Qed.

Lemma has_char_last_segment c s :
  has_char c (last_segment s) = true → has_char c s = true.
Proof.
  induction s as [|a s IH]; [done|].
  cbn [last_segment]. destruct (has_slash (String a s)); [|done].
  intros H%IH. cbn [has_char]. rewrite H. apply orb_true_r.
Qed.

Lemma last_segment_keeps_tail c s frag :
  has_slash (String c frag) = false →
  has_char c (last_segment (s +:+ String c frag)) = true.
Proof.
  intros Hfrag. induction s as [|a s IH].
  - change ("" +:+ String c frag) with (String c frag).
    rewrite last_segment_no_slash by done.
    cbn [has_char]. by rewrite bool_decide_eq_true_2.
  - change (String a s +:+ String c frag) with (String a (s +:+ String c frag)).
    cbn [last_segment].
    destruct (has_slash (String a (s +:+ String c frag))); [done|].
    change (String a (s +:+ String c frag)) with (String a s +:+ String c frag).
    rewrite has_char_append. cbn [has_char].
    rewrite (bool_decide_eq_true_2 (c = c)) by done. cbn [orb]. apply orb_true_r.
Qed.

(** X11: the href is compared as written: a link whose href carries a
    query or a fragment (a '?' or '#' with no slash after it) is never
    marked active on a path that holds no such character. *)
Theorem href_with_fragment_never_active c pathname h frag cl :
  has_char c "index.html" = false →
  has_char c pathname = false →
  has_slash (String c frag) = false →
  is_active (highlight (current_filename pathname)
                       (mkLink (Some (h +:+ String c frag)) cl)) = false.
Proof.
  intros Hhome Hpath Hfrag.
  rewrite is_active_highlight, is_current_spec.
  apply bool_decide_eq_false_2. intros Heq.
  assert (has_char c (resolved_target (mkLink (Some (h +:+ String c frag)) cl))
          = true) as Ht.
  { unfold resolved_target. simpl.
    destruct (h +:+ String c frag) as [|a s] eqn:Hh.
    - by destruct h.
    - rewrite <- Hh. by apply last_segment_keeps_tail. }
  rewrite Heq in Ht. unfold resolved_current in Ht.
  destruct (last_segment pathname) as [|a s] eqn:Hl.
  - by rewrite Hhome in Ht.
  - rewrite <- Hl in Ht. apply has_char_last_segment in Ht.
    by rewrite Hpath in Ht.
Qed.

Lemma href_with_fragment_never_active_witness :
  is_active (highlight (current_filename "/about.html")
                       (mkLink (Some ("about.html" +:+ "#team")) ["active"]))
    = false.
Proof.
  apply (href_with_fragment_never_active "#" "/about.html" "about.html" "team");
    reflexivity.
Defined.

(** X12: the loop changes the marker and nothing else: with 'active' left
    out, every link has after page-ready the classes it had before, in the
    same order. *)
Theorem highlight_keeps_other_classes fullYear pathname p :
  (λ a, ClassList.remove "active" (link_classList a))
    <$> navLinks (doc (load fullYear pathname p))
  = (λ a, ClassList.remove "active" (link_classList a)) <$> navLinks p.
Proof.
  rewrite load_navLinks, <- list_fmap_compose.
  apply list_fmap_ext. intros _ a _. simpl.
  unfold highlight. destruct (is_current _ a); simpl.
  - unfold ClassList.add.
    destruct (ClassList.contains "active" (link_classList a)); [done|].
    unfold ClassList.remove. rewrite filter_app, filter_cons.
    rewrite decide_False by (intros H; by apply H). by rewrite app_nil_r.
  - apply remove_idem.
Qed.

End FilenamesMore.

(** ** The timer queue *)

Section Queue.

Lemma run_snoc evs ev st : run (evs ++ [ev]) st = step ev (run evs st).
Proof. unfold run. by rewrite foldl_app. Qed.

Lemma enqueue_in_order t q : in_firing_order q → in_firing_order (enqueue t q).
Proof.
  unfold in_firing_order. intros Hq.
  induction Hq as [|u q Hq IH Hu]; simpl.
  - repeat constructor.
  - destruct (decide (timer_due u ≤ timer_due t)) as [Hle|Hgt].
    + constructor; [done|]. by apply Forall_enqueue.
    + constructor; [by constructor|]. constructor; [lia|].
      eapply Forall_impl; [exact Hu|]. simpl. intros x Hx. lia.
Qed.

Lemma filter_in_order (P : Timer → Prop) `{∀ t, Decision (P t)} q :
  in_firing_order q → in_firing_order (filter P q).
Proof.
  unfold in_firing_order. intros Hq.
  induction Hq as [|u q Hq IH Hu]; [constructor|].
  rewrite filter_cons. destruct (decide (P u)); [|done].
  constructor; [done|]. apply Forall_forall.
  intros x [_ Hx]%list_elem_of_filter.
  rewrite Forall_forall in Hu. by apply Hu.
Qed.

(** What any event does to the clock and the queue. *)
Lemma step_queue ev st :
  wired st → timers_ahead st →
  (clock (step ev st) = clock st + ms_of ev
   ∧ timers (step ev st)
     = filter (λ t, ¬ timer_due t ≤ clock st + ms_of ev) (timers st))
  ∨ (clock (step ev st) = clock st
     ∧ timers (step ev st)
       = enqueue (mkTimer (clock st + 3500) ClearFormMsg) (timers st)).
Proof.
  intros Hw Ht. destruct (is_submit ev) eqn:Hev.
  - destruct ev; try discriminate. simpl ms_of.
    assert (Forall (λ t, clock st + 0 < timer_due t) (timers st)) as Ht0.
    { apply (Forall_earlier (clock st)); [lia|done]. }
    destruct (filter_ahead _ _ Ht0) as [Hkeep _]. rewrite Hkeep.
    destruct (subscribeForm (doc st)) eqn:Hf;
      [destruct (truthy (email_value st)) eqn:He|].
    + right. by destruct (submit_success_path st Hw Hf He)
        as (_ & _ & _ & _ & -> & ->).
    + left. unfold step. rewrite dispatch_submit_falsy by done. simpl.
      rewrite clock_with_msg, timers_with_msg. split; [lia|done].
    + left. unfold step. rewrite dispatch_submit_absent by done. simpl.
      split; [lia|done].
  - left. by destruct (step_quiet ev st Hw Ht Hev) as (-> & -> & _).
Qed.

(** X13: at any point of the page's life the pending clears are queued in
    firing order, each is still to come, and none is more than 3500 ms
    away. *)
Theorem pending_clears_within_delay st :
  reachable st →
  in_firing_order (timers st)
  ∧ Forall (λ t, clock st < timer_due t ≤ clock st + 3500) (timers st).
Proof.
  intros Hr.
  assert (in_firing_order (timers st)
          ∧ Forall (λ t, timer_due t ≤ clock st + 3500) (timers st)) as [Ho Hb].
  { induction Hr as [fullYear pathname p|ev st Hr [IHo IHb]].
    - rewrite load_timers. split; constructor.
    - destruct (step_queue ev st (reachable_wired st Hr)
                  (reachable_timers_ahead st Hr)) as [[-> ->]|[-> ->]].
      + split; [by apply filter_in_order|].
        apply Forall_forall. intros t [_ Hin]%list_elem_of_filter.
        rewrite Forall_forall in IHb. specialize (IHb t Hin). simpl in IHb. lia.
      + split; [by apply enqueue_in_order|].
        apply Forall_enqueue; [simpl; lia|done]. }
  split; [done|].
  pose proof (reachable_timers_ahead st Hr) as Ha. unfold timers_ahead in Ha.
  rewrite Forall_forall in Ha, Hb |- *. intros t Hin.
  specialize (Ha t Hin). specialize (Hb t Hin). simpl in *. lia.
Qed.

Lemma pending_clears_within_delay_witness :
  Forall (λ t, 1200 < timer_due t ≤ 1200 + 3500)
    (timers (run [UserInput 0 "a@b.com"; SubmitForm; Elapse 1200;
                  UserInput 0 "c@d.org"; SubmitForm]
                 (load 2026 "/about.html" sample_page))).
Proof.
  apply (pending_clears_within_delay
           (run [UserInput 0 "a@b.com"; SubmitForm; Elapse 1200;
                 UserInput 0 "c@d.org"; SubmitForm]
                (load 2026 "/about.html" sample_page))).
  apply run_reachable, reachable_load.
Defined.

(** A pending clear stays on the queue until it is due. *)
Lemma run_keeps_pending evs : ∀ st t,
  wired st → timers_ahead st →
  Forall (λ ev, is_submit ev = false) evs →
  t ∈ timers st → clock st + elapsed evs < timer_due t →
  t ∈ timers (run evs st) ∧ clock (run evs st) = clock st + elapsed evs.
Proof.
  induction evs as [|ev evs IH]; intros st t Hw Ht Hq Hin Hd.
  - change (elapsed []) with 0. by rewrite Nat.add_0_r.
  - apply Forall_cons in Hq as [Hev Hq].
    rewrite elapsed_cons in Hd |- *.
    change (run (ev :: evs) st) with (run evs (step ev st)).
    destruct (step_quiet ev st Hw Ht Hev) as (Hc & Hts & _).
    destruct (IH (step ev st) t) as [IHin IHc].
    + by apply step_wired.
    + by apply step_timers_ahead.
    + done.
    + rewrite Hts. apply list_elem_of_filter. split; [lia|done].
    + rewrite Hc. lia.
    + split; [done|]. rewrite IHc, Hc. lia.
Qed.

End Queue.

(** ** The subscription form, once more *)

Section SubscriptionMore.

Lemma const_msg_same {A} (a b : option A) (x : string) :
  bool_decide (is_Some a) = bool_decide (is_Some b) →
  (λ _, x) <$> a = (λ _, x) <$> b.
Proof.
  destruct a, b; simpl; try done; intros Hb; exfalso; revert Hb;
    rewrite ?(bool_decide_eq_true_2 (is_Some (Some _))) by eauto;
    rewrite ?(bool_decide_eq_false_2 (is_Some None)) by (by intros [??]);
    discriminate.
Qed.

Lemma const_msg_skeleton (x : string) st st' :
  skeleton st' = skeleton st →
  (λ _, x) <$> formMsg (doc st') = (λ _, x) <$> formMsg (doc st).
Proof.
  unfold skeleton. intros Hs. injection Hs as _ _ _ _ _ _ Hm _.
  by apply const_msg_same.
Qed.

(** What any event does to the status message. *)
Lemma step_formMsg ev st :
  reachable st →
  formMsg (doc (step ev st)) = formMsg (doc st)
  ∨ ∃ text, text ∈ [err_text; ok_text; ""]
            ∧ formMsg (doc (step ev st)) = (λ _, text) <$> formMsg (doc st).
Proof.
  intros Hr. pose proof (reachable_wired st Hr) as Hw.
  destruct (is_submit ev) eqn:Hev.
  - destruct ev; try discriminate.
    destruct (subscribeForm (doc st)) eqn:Hf;
      [destruct (truthy (email_value st)) eqn:He|].
    + right. exists ok_text. split; [set_solver|].
      by destruct (submit_success_path st Hw Hf He) as (_ & _ & -> & _).
    + right. exists err_text. split; [set_solver|].
      by destruct (submit_error_path st Hw Hf He) as (_ & _ & -> & _).
    + left. unfold step. by rewrite dispatch_submit_absent.
  - destruct (step_quiet ev st Hw (reachable_timers_ahead st Hr) Hev)
      as (_ & _ & ->).
    destruct (filter _ (timers st)); [by left|].
    right. exists "". split; [set_solver|done].
Qed.

(** X14: the status message only ever shows what the markup put there,
    one of the two texts of the submit listener, or nothing; and a page
    without the message element never gets one. *)
Theorem status_message_texts fullYear pathname p evs :
  formMsg (doc (run evs (load fullYear pathname p))) = formMsg p
  ∨ ∃ text,
      text ∈ ["Please enter a valid email."; "Thanks — you are subscribed!"; ""]
      ∧ formMsg (doc (run evs (load fullYear pathname p)))
        = (λ _, text) <$> formMsg p.
Proof.
  induction evs as [|ev evs IH] using rev_ind.
  - left. simpl. rewrite load_doc. by destruct (yearEl p).
  - rewrite run_snoc.
    destruct (step_formMsg ev (run evs (load fullYear pathname p)))
      as [->|(text & Hin & ->)].
    + apply run_reachable, reachable_load.
    + done.
    + right. exists text. split; [done|].
      destruct IH as [->|(text' & _ & ->)]; [done|]. apply fmap_const_twice.
Qed.

(** X15: on a page without the form a submit reaches no listener: nothing
    is cancelled or changed, and through any events the status message
    stays as the markup has it and no timer is ever queued. *)
Theorem without_form_nothing_happens fullYear pathname p evs :
  subscribeForm p = false →
  formMsg (doc (run evs (load fullYear pathname p))) = formMsg p
  ∧ timers (run evs (load fullYear pathname p)) = []
  ∧ dispatch SubmitForm (run evs (load fullYear pathname p))
    = (mkReport [] false, run evs (load fullYear pathname p)).
Proof.
  intros Hf.
  assert (∀ evs', subscribeForm (doc (run evs' (load fullYear pathname p))) = false)
    as Hno.
  { intros evs'.
    pose proof (run_skeleton evs' _ (load_wired fullYear pathname p)) as Hs.
    unfold skeleton in Hs. injection Hs as _ _ _ _ _ -> _ _.
    rewrite load_doc. by destruct (yearEl p). }
  assert (∀ evs', wired (run evs' (load fullYear pathname p))) as Hw.
  { intros evs'. apply reachable_wired, run_reachable, reachable_load. }
  assert (formMsg (doc (run evs (load fullYear pathname p))) = formMsg p
          ∧ timers (run evs (load fullYear pathname p)) = []) as [Hm Ht].
  { induction evs as [|ev evs [IHm IHt]] using rev_ind.
    - simpl. rewrite load_timers, load_doc. by destruct (yearEl p).
    - rewrite run_snoc. destruct (is_submit ev) eqn:Hev.
      + destruct ev; try discriminate. unfold step.
        by rewrite dispatch_submit_absent.
      + destruct (step_quiet ev _ (Hw evs)) as (_ & -> & ->); [|done|].
        * unfold timers_ahead. rewrite IHt. constructor.
        * by rewrite IHt. }
  split_and!; [done|done|]. by apply dispatch_submit_absent.
Qed.

Lemma without_form_nothing_happens_witness :
  formMsg (doc (run [SubmitForm; Elapse 4000]
                    (load 2026 "/index.html"
                          (mkPage None None None [] false [] (Some "hello")))))
    = Some "hello".
Proof.
  destruct (without_form_nothing_happens 2026 "/index.html"
              (mkPage None None None [] false [] (Some "hello"))
              [SubmitForm; Elapse 4000]) as (Hm & _).
  - reflexivity.
  - exact Hm.
Defined.

(** X16: the clear of a successful submission also wipes a later error:
    when a submission with an empty email follows a successful one within
    3500 ms, the error text is shown, and is emptied 3500 ms after the
    successful submission, however recent the error is. *)
Theorem error_wiped_by_earlier_clear st evs :
  reachable st →
  subscribeForm (doc st) = true →
  truthy (email_value st) = true →
  Forall (λ ev, is_submit ev = false) evs →
  elapsed evs < 3500 →
  truthy (email_value (run evs (step SubmitForm st))) = false →
  let failed := step SubmitForm (run evs (step SubmitForm st)) in
  formMsg (doc failed) = (λ _, "Please enter a valid email.") <$> formMsg (doc st)
  ∧ clock failed = clock st + elapsed evs
  ∧ formMsg (doc (step (Elapse (3500 - elapsed evs)) failed))
    = (λ _, "") <$> formMsg (doc st).
Proof.
  intros Hr Hf He Hq Hgap He2 failed.
  pose proof (reachable_wired st Hr) as Hw.
  destruct (submit_success_path st Hw Hf He) as (_ & _ & _ & _ & Ht1 & Hk1).
  assert (reachable (step SubmitForm st)) as Hr1 by (by constructor).
  destruct (run_keeps_pending evs (step SubmitForm st)
              (mkTimer (clock st + 3500) ClearFormMsg)) as [Hin Hkm].
  { by apply reachable_wired. }
  { by apply reachable_timers_ahead. }
  { done. }
  { rewrite Ht1. apply elem_of_enqueue. by left. }
  { rewrite Hk1. simpl. lia. }
  assert (reachable (run evs (step SubmitForm st))) as Hrm
    by (by apply run_reachable).
  pose proof (reachable_wired _ Hrm) as Hwm.
  assert (skeleton (run evs (step SubmitForm st)) = skeleton st) as Hsk.
  { rewrite run_skeleton by (by apply reachable_wired). by apply step_skeleton. }
  assert (subscribeForm (doc (run evs (step SubmitForm st))) = true) as Hfm.
  { unfold skeleton in Hsk. by injection Hsk as _ _ _ _ _ -> _ _. }
  destruct (submit_error_path _ Hwm Hfm He2) as (_ & _ & Hm2 & _ & Ht2).
  fold failed in Hm2, Ht2.
  assert (clock failed = clock st + elapsed evs) as Hk2.
  { unfold failed. unfold step at 1. rewrite dispatch_submit_falsy by done.
    cbn [snd]. by rewrite clock_with_msg, Hkm, Hk1. }
  assert (reachable failed) as Hr2 by (by constructor).
  destruct (step_quiet (Elapse (3500 - elapsed evs)) failed) as (_ & _ & Hm3);
    [by apply reachable_wired | by apply reachable_timers_ahead | done |].
  simpl ms_of in Hm3.
  assert (clock failed + (3500 - elapsed evs) = clock st + 3500) as Hnow by lia.
  rewrite Hnow in Hm3.
  assert (mkTimer (clock st + 3500) ClearFormMsg
            ∈ filter (λ t, timer_due t ≤ clock st + 3500) (timers failed)) as Hdue.
  { apply list_elem_of_filter. split; [simpl; lia|]. by rewrite Ht2. }
  split_and!.
  - rewrite Hm2. by apply const_msg_skeleton.
  - done.
  - rewrite Hm3.
    destruct (filter (λ t, timer_due t ≤ clock st + 3500) (timers failed)).
    + by apply elem_of_nil in Hdue.
    + rewrite Hm2, fmap_const_twice. by apply const_msg_skeleton.
Qed.

Lemma error_wiped_by_earlier_clear_witness :
  let failed := step SubmitForm
                  (run [Elapse 3000]
                       (step SubmitForm
                          (run [UserInput 0 "a@b.com"]
                               (load 2026 "/about.html" sample_page)))) in
  formMsg (doc failed) = Some "Please enter a valid email."
  ∧ formMsg (doc (step (Elapse 500) failed)) = Some "".
Proof.
  destruct (error_wiped_by_earlier_clear
              (run [UserInput 0 "a@b.com"] (load 2026 "/about.html" sample_page))
              [Elapse 3000]) as (Hm & _ & Hc).
  - apply run_reachable, reachable_load.
  - reflexivity.
  - reflexivity.
  - repeat constructor.
  - vm_compute. lia.
  - reflexivity.
  - split; [exact Hm | exact Hc].
Defined.

Lemma list_find_reset (cs : list Control) id :
  list_find (λ c, ctl_id c = id) (reset_control <$> cs)
  = prod_map Datatypes.id reset_control <$> list_find (λ c, ctl_id c = id) cs.
Proof.
  rewrite list_find_fmap. f_equal. apply list_find_ext.
  intros c. simpl. unfold reset_control. by destruct (ctl_in_form c).
Qed.

(** X17: what the email input holds after a successful submission: its
    default when it belongs to the form, its old value when it does not.
    So with an email input of the form whose default is empty, submitting
    again at once shows the error text, and with an email input outside
    the form the same address is accepted again. *)
Theorem email_after_success st k c :
  reachable st →
  subscribeForm (doc st) = true →
  truthy (email_value st) = true →
  list_find (λ c, ctl_id c = "subEmail") (controls (doc st)) = Some (k, c) →
  email_value (step SubmitForm st)
    = Str (if ctl_in_form c then ctl_default c else ctl_value c)
  ∧ (ctl_in_form c = true → ctl_default c = "" →
     formMsg (doc (step SubmitForm (step SubmitForm st)))
       = (λ _, "Please enter a valid email.") <$> formMsg (doc st))
  ∧ (ctl_in_form c = false →
     formMsg (doc (step SubmitForm (step SubmitForm st)))
       = (λ _, "Thanks — you are subscribed!") <$> formMsg (doc st)).
Proof.
  intros Hr Hf He Hfind. pose proof (reachable_wired st Hr) as Hw.
  destruct (submit_success_path st Hw Hf He) as (_ & _ & Hm & Hc & _ & _).
  assert (email_value (step SubmitForm st)
          = Str (if ctl_in_form c then ctl_default c else ctl_value c)) as Hv.
  { unfold email_value. rewrite Hc, list_find_reset, Hfind. simpl.
    unfold reset_control. by destruct (ctl_in_form c). }
  assert (reachable (step SubmitForm st)) as Hr1 by (by constructor).
  pose proof (reachable_wired _ Hr1) as Hw1.
  assert (subscribeForm (doc (step SubmitForm st)) = true) as Hf1.
  { pose proof (step_skeleton SubmitForm st Hw) as Hs.
    unfold skeleton in Hs. by injection Hs as _ _ _ _ _ -> _ _. }
  split_and!; [done| |].
  - intros Hin Hd. rewrite Hin, Hd in Hv.
    destruct (submit_error_path _ Hw1 Hf1) as (_ & _ & -> & _);
      [by rewrite Hv|].
    rewrite Hm. apply fmap_const_twice.
  - intros Hout. rewrite Hout in Hv.
    assert (email_value st = Str (ctl_value c)) as Hv0.
    { unfold email_value. by rewrite Hfind. }
    destruct (submit_success_path _ Hw1 Hf1) as (_ & _ & -> & _);
      [by rewrite Hv, <- Hv0|].
    rewrite Hm. apply fmap_const_twice.
Qed.

Lemma email_after_success_witness :
  email_value (step SubmitForm
                 (run [UserInput 0 "a@b.com"]
                      (load 2026 "/about.html" sample_page))) = Str ""
  ∧ formMsg (doc (step SubmitForm
                    (step SubmitForm
                       (run [UserInput 0 "a@b.com"]
                            (load 2026 "/about.html" sample_page)))))
    = Some "Please enter a valid email.".
Proof.
  destruct (email_after_success
              (run [UserInput 0 "a@b.com"] (load 2026 "/about.html" sample_page))
              0 (mkControl "subEmail" "a@b.com" "" true))
    as (Hv & Herr & _).
  - apply run_reachable, reachable_load.
  - reflexivity.
  - reflexivity.
  - reflexivity.
  - split; [exact Hv | by apply Herr].
Defined.

End SubscriptionMore.

(** ** Composition *)

Section Composition.

Import ClassList.

(** X18: two clicks on the toggle undo each other: the panel has the
    classes it had (the class 'open', when it was there, may have moved to
    the end of the list), and [aria-expanded] says so. *)
Theorem double_toggle_restores st attrs cl :
  reachable st →
  navToggle (doc st) = Some attrs →
  mainNav (doc st) = Some cl →
  mainNav (doc (run [ClickNavToggle; ClickNavToggle] st))
    = Some (toggle "open" (toggle "open" cl).1).1
  ∧ (∀ tok, contains tok (toggle "open" (toggle "open" cl).1).1
            = contains tok cl)
  ∧ panel_open (run [ClickNavToggle; ClickNavToggle] st) = panel_open st
  ∧ aria_in_sync (run [ClickNavToggle; ClickNavToggle] st).
Proof.
  intros Hr Hnt Hmn. pose proof (reachable_wired st Hr) as Hw.
  change (run [ClickNavToggle; ClickNavToggle] st)
    with (step ClickNavToggle (step ClickNavToggle st)).
  assert (reachable (step ClickNavToggle st)) as Hr1 by (by constructor).
  pose proof (reachable_wired _ Hr1) as Hw1.
  assert (navToggle (doc (step ClickNavToggle st))
          = Some (<["aria-expanded" :=
                      String_of_bool (toggle "open" cl).2]> attrs)
          ∧ mainNav (doc (step ClickNavToggle st)) = Some (toggle "open" cl).1)
    as [Hnt1 Hmn1].
  { unfold step. by rewrite (dispatch_toggle st Hw attrs cl). }
  destruct (toggle_step _ _ _ Hw1 Hnt1 Hmn1) as [Ho2 Ha2].
  assert (∀ tok, contains tok (toggle "open" (toggle "open" cl).1).1
                 = contains tok cl) as Hall.
  { intros tok. destruct (decide (tok = "open")) as [->|Hne].
    - rewrite !contains_toggle. apply negb_involutive.
    - by rewrite !contains_toggle_ne. }
  split_and!.
  - unfold step at 1. by rewrite (dispatch_toggle _ Hw1 _ _ Hnt1 Hmn1).
  - done.
  - rewrite Ho2, contains_toggle, negb_involutive.
    unfold panel_open. by rewrite Hmn.
  - unfold aria_in_sync. by rewrite Ha2, Ho2.
Qed.

Lemma double_toggle_restores_witness :
  panel_open (run [ClickNavToggle; ClickNavToggle]
                  (load 2026 "/index.html" sample_page))
    = panel_open (load 2026 "/index.html" sample_page).
Proof.
  destruct (double_toggle_restores (load 2026 "/index.html" sample_page)
              {["aria-expanded" := "false"]} ["main-nav"])
    as (_ & _ & Hp & _).
  - apply reachable_load.
  - reflexivity.
  - reflexivity.
  - exact Hp.
Defined.

Lemma last_segment_slash_free s : has_slash (last_segment s) = false.
Proof.
  induction s as [|c rest IH]; [done|].
  cbn [last_segment]. by destruct (has_slash (String c rest)) eqn:Hs.
Qed.

(** X19: the two filenames the loop compares never hold a slash, and the
    current one is never empty: the comparison is between bare file names. *)
Theorem filenames_are_bare pathname a :
  has_slash (current_filename pathname) = false
  ∧ current_filename pathname ≠ ""
  ∧ ∃ f, target_filename a = Str f ∧ has_slash f = false.
Proof.
  split_and!.
  - rewrite current_filename_resolved. unfold resolved_current.
    pose proof (last_segment_slash_free pathname) as Hs.
    by destruct (last_segment pathname).
  - apply current_filename_nonempty.
  - exists (resolved_target a). split; [apply target_filename_resolved|].
    unfold resolved_target.
    destruct (link_href a) as [[|c h]|]; [done| |done].
    apply last_segment_slash_free.
Qed.

End Composition.

(** ** Waiting *)

Section Waiting.

Lemma filter_later_twice (n1 n2 : nat) (ts : list Timer) :
  n1 ≤ n2 →
  filter (λ t, ¬ timer_due t ≤ n2) (filter (λ t, ¬ timer_due t ≤ n1) ts)
  = filter (λ t, ¬ timer_due t ≤ n2) ts.
Proof.
  intros Hle. rewrite list_filter_filter. apply list_filter_iff.
  intros t. lia.
Qed.

Lemma filter_due_split (n1 n2 : nat) (ts : list Timer) :
  n1 ≤ n2 →
  filter (λ t, timer_due t ≤ n2) ts = [] ↔
  filter (λ t, timer_due t ≤ n1) ts = []
  ∧ filter (λ t, timer_due t ≤ n2) (filter (λ t, ¬ timer_due t ≤ n1) ts) = [].
Proof.
  intros Hle. induction ts as [|t ts IH]; [done|].
  rewrite !filter_cons.
  destruct (decide (timer_due t ≤ n2)) as [H2|H2];
    destruct (decide (timer_due t ≤ n1)) as [H1|H1]; try lia.
  - split; [done | by intros [? _]].
  - rewrite decide_True by lia. rewrite filter_cons, decide_True by done.
    split; [done | by intros [_ ?]].
  - rewrite decide_True by lia. rewrite filter_cons, decide_False by done.
    exact IH.
Qed.

(** X20: waiting in two steps is waiting once: the page after [a] and then
    [b] milliseconds is the page after [a + b] milliseconds, the clear
    callback doing the same however often it runs. *)
Theorem elapse_splits a b st :
  step (Elapse b) (step (Elapse a) st) = step (Elapse (a + b)) st.
Proof.
  unfold step. rewrite !dispatch_elapse. cbn [snd].
  destruct st as [[y nt mn links sf ctls msg] ls ts c]. cbn -[filter].
  rewrite (Nat.add_assoc c a b).
  pose proof (filter_due_split (c + a) (c + a + b) ts) as Hsplit.
  pose proof (filter_later_twice (c + a) (c + a + b) ts) as Hlater.
  destruct (filter (λ t, timer_due t ≤ c + a) ts) as [|u1 d1] eqn:H1;
    destruct msg as [m|]; unfold with_msg; cbn -[filter];
    rewrite Hlater by lia;
    destruct (filter (λ t, timer_due t ≤ c + a + b)
                (filter (λ t, ¬ timer_due t ≤ c + a) ts)) as [|u2 d2] eqn:H2;
    destruct (filter (λ t, timer_due t ≤ c + a + b) ts) as [|u3 d3] eqn:H3;
    cbn -[filter]; try reflexivity;
    try (exfalso; destruct Hsplit as [Hs1 Hs2]; [lia|];
         first [ by destruct (Hs1 eq_refl)
               | by specialize (Hs2 (conj eq_refl eq_refl)) ]).
Qed.

End Waiting.
